(** * Spec validator (skills/interview-to-spec/scripts/spec-validator.py)

    A shallow embedding of the validator script and the properties of
    its section checker, quality scanner, statistics and driver.

    Documents are read as ASCII text: a document is a list of
    characters, and the character classes below are those of Python's
    [re] module on code points below 128.  The regular expressions of
    the script are kept as syntax trees and run by a backtracking
    matcher that explores alternatives in the order Python's engine
    does (greedy repetition first, alternatives left to right). *)

From Stdlib Require Import Ascii String.
From Stdlib Require Import List Arith Bool Lia PeanoNat Permutation.
Import ListNotations.

Local Open Scope list_scope.

(** ** Text and character classes *)

Definition text := list ascii.

(** A string literal of the script, as text. *)
Definition T (s : string) : text := list_ascii_of_string s.

Definition code (a : ascii) : nat := nat_of_ascii a.

Definition between (lo hi : nat) (a : ascii) : bool :=
  (lo <=? code a) && (code a <=? hi).

(** [\s]: tab, line feed, vertical tab, form feed, carriage return,
    the four separators 0x1c..0x1f, and space. *)
Definition is_space (a : ascii) : bool := between 9 13 a || between 28 32 a.

(** [\d] *)
Definition is_digit (a : ascii) : bool := between 48 57 a.

Definition is_upper (a : ascii) : bool := between 65 90 a.
Definition is_lower (a : ascii) : bool := between 97 122 a.
Definition is_alpha (a : ascii) : bool := is_upper a || is_lower a.

(** [\w]: letters, digits and the underscore. *)
Definition is_word (a : ascii) : bool :=
  is_alpha a || is_digit a || (code a =? 95).

Definition newline : ascii := ascii_of_nat 10.

Definition lower (a : ascii) : ascii :=
  if is_upper a then ascii_of_nat (code a + 32) else a.

Definition upper (a : ascii) : ascii :=
  if is_lower a then ascii_of_nat (code a - 32) else a.

(** ** Regular expressions *)

Module Re.

(** One-character items. *)
Inductive cls : Type :=
| Lit (c : ascii)            (* a literal character *)
| Space                      (* \s *)
| Digit                      (* \d *)
| Dot                        (* .  (anything but a line feed) *)
| OneOf (cs : list ascii).   (* [...] *)

Inductive regex : Type :=
| Eps
| Ch (c : cls)
| Star (c : cls)             (* c*  greedy *)
| Cat (r1 r2 : regex)
| Alt (r1 r2 : regex)        (* r1|r2 *)
| WordB                      (* \b *)
| Bol                        (* ^ *)
| Eol.                       (* $ *)

(** c+ and c?, both greedy. *)
Definition Plus (c : cls) : regex := Cat (Ch c) (Star c).
Definition Opt (c : cls) : regex := Alt (Ch c) Eps.

(** A run of literal characters. *)
Fixpoint lits (s : text) : regex :=
  match s with
  | [] => Eps
  | a :: s' => Cat (Ch (Lit a)) (lits s')
  end.

(** r | r1 | ... | rn *)
Fixpoint alt_of (r : regex) (rs : list regex) : regex :=
  match rs with
  | [] => r
  | r' :: rs' => Alt r (alt_of r' rs')
  end.

Record flags : Type := { IGNORECASE : bool; MULTILINE : bool }.

Definition no_flags : flags := {| IGNORECASE := false; MULTILINE := false |}.
Definition ignorecase : flags := {| IGNORECASE := true; MULTILINE := false |}.
Definition multiline : flags := {| IGNORECASE := false; MULTILINE := true |}.

Definition same_char (fl : flags) (c a : ascii) : bool :=
  if IGNORECASE fl then Ascii.eqb (lower c) (lower a) else Ascii.eqb c a.

Definition cls_match (fl : flags) (c : cls) (a : ascii) : bool :=
  match c with
  | Lit c => same_char fl c a
  | Space => is_space a
  | Digit => is_digit a
  | Dot => negb (Ascii.eqb a newline)
  | OneOf cs => existsb (fun c => same_char fl c a) cs
  end.

Definition word_before (prev : option ascii) : bool :=
  match prev with Some a => is_word a | None => false end.

Definition word_after (s : text) : bool :=
  match s with a :: _ => is_word a | [] => false end.

(** [\b]: exactly one side of the position is a word character. *)
Definition at_boundary (prev : option ascii) (s : text) : bool :=
  xorb (word_before prev) (word_after s).

Definition at_bol (fl : flags) (prev : option ascii) : bool :=
  match prev with
  | None => true
  | Some a => MULTILINE fl && Ascii.eqb a newline
  end.

Definition at_eol (fl : flags) (s : text) : bool :=
  match s with
  | [] => true
  | a :: s' =>
      Ascii.eqb a newline &&
      (MULTILINE fl || match s' with [] => true | _ => false end)
  end.

(** The matcher runs at a position given by the character before it
    ([prev], [None] at the start of the text) and the text from it on.
    The continuation [k] is what remains of the pattern; the result is
    the text left after the first successful match in backtracking
    order. *)
Definition cont : Type := option ascii -> text -> option text.

Section Matcher.
Variable fl : flags.

Fixpoint star_loop (c : cls) (k : cont) (prev : option ascii) (s : text)
  : option text :=
  match s with
  | a :: s' =>
      if cls_match fl c a then
        match star_loop c k (Some a) s' with
        | Some r => Some r
        | None => k prev s
        end
      else k prev s
  | [] => k prev s
  end.

Fixpoint m (r : regex) (k : cont) (prev : option ascii) (s : text)
  : option text :=
  match r with
  | Eps => k prev s
  | Ch c =>
      match s with
      | a :: s' => if cls_match fl c a then k (Some a) s' else None
      | [] => None
      end
  | Star c => star_loop c k prev s
  | Cat r1 r2 => m r1 (m r2 k) prev s
  | Alt r1 r2 =>
      match m r1 k prev s with
      | Some x => Some x
      | None => m r2 k prev s
      end
  | WordB => if at_boundary prev s then k prev s else None
  | Bol => if at_bol fl prev then k prev s else None
  | Eol => if at_eol fl s then k prev s else None
  end.

Definition accept : cont := fun _ rest => Some rest.

(** A match starting exactly here: what is left after it. *)
Definition match_at (r : regex) (prev : option ascii) (s : text)
  : option text := m r accept prev s.

(** [re.search]: the first position, left to right, with a match;
    the result is the matched text. *)
Fixpoint search_from (r : regex) (prev : option ascii) (s : text)
  : option text :=
  match match_at r prev s with
  | Some rest => Some (firstn (length s - length rest) s)
  | None =>
      match s with
      | [] => None
      | a :: s' => search_from r (Some a) s'
      end
  end.

Definition search (r : regex) (content : text) : option text :=
  search_from r None content.

(** [re.findall]: the matches found scanning left to right, each
    search resuming where the previous match ended.  [skip] counts
    the characters still inside the previous match.  (None of the
    script's patterns matches the empty text; after an empty match
    the scan moves one character on.) *)
Fixpoint findall_from (r : regex) (skip : nat) (prev : option ascii)
  (s : text) {struct s} : list text :=
  match skip with
  | S n =>
      match s with
      | [] => []
      | a :: s' => findall_from r n (Some a) s'
      end
  | 0 =>
      match match_at r prev s with
      | Some rest =>
          let len := length s - length rest in
          firstn len s ::
            match s with
            | [] => []
            | a :: s' => findall_from r (len - 1) (Some a) s'
            end
      | None =>
          match s with
          | [] => []
          | a :: s' => findall_from r 0 (Some a) s'
          end
      end
  end.

Definition findall (r : regex) (content : text) : list text :=
  findall_from r 0 None content.
End Matcher.

End Re.

Import Re.

(** ** The script's tables *)

Local Open Scope string_scope.
Local Open Scope list_scope.
Local Open Scope nat_scope.

(** Required sections for a full spec. *)
Definition FULL_SPEC_SECTIONS : list string :=
  [ "Overview"; "User Stories"; "Technical"; "UI/UX"; "Edge Cases";
    "Security"; "Performance"; "Implementation" ].

(** Required sections for a quick spec. *)
Definition QUICK_SPEC_SECTIONS : list string :=
  [ "What"; "Why"; "How"; "Acceptance Criteria" ].

(** [\[(TODO|TBD|PLACEHOLDER|XXX|FIXME)\]] *)
Definition unresolved_placeholders_re : regex :=
  Cat (Ch (Lit "["))
    (Cat (alt_of (lits (T "TODO"))
            [ lits (T "TBD"); lits (T "PLACEHOLDER"); lits (T "XXX");
              lits (T "FIXME") ])
       (Ch (Lit "]"))).

(** [\|\s*\|\s*\|] *)
Definition empty_tables_re : regex :=
  Cat (Ch (Lit "|"))
    (Cat (Star Space) (Cat (Ch (Lit "|")) (Cat (Star Space) (Ch (Lit "|"))))).

(** [- \[ \] \[] *)
Definition missing_acceptance_criteria_re : regex := lits (T "- [ ] [").

(** [\b(maybe|probably|might|could|should consider|etc\.)\b] *)
Definition vague_language_re : regex :=
  Cat WordB
    (Cat (alt_of (lits (T "maybe"))
            [ lits (T "probably"); lits (T "might"); lits (T "could");
              lits (T "should consider"); lits (T "etc.") ])
       WordB).

(** The dictionary of quality checks, in its insertion order. *)
Definition QUALITY_PATTERNS : list (string * regex) :=
  [ ("unresolved_placeholders", unresolved_placeholders_re);
    ("empty_tables", empty_tables_re);
    ("missing_acceptance_criteria", missing_acceptance_criteria_re);
    ("vague_language", vague_language_re) ].

(** ** Section checker *)

(** Characters with a meaning of their own in a pattern.  A section
    name is spliced into the pattern as pattern text; a name without
    such characters, like every name of the two tables above, stands
    for itself, and that is the case embedded here. *)
Definition is_meta (a : ascii) : bool :=
  existsb (Ascii.eqb a) (T ".^$*+?{}[]\|()").

Definition plain_name (section : string) : bool :=
  forallb (fun a => negb (is_meta a)) (T section).

(** [rf'##\s+\d*\.?\s*{section}'] *)
Definition section_pattern (section : string) : regex :=
  Cat (lits (T "##"))
    (Cat (Plus Space)
       (Cat (Star Digit)
          (Cat (Opt (Lit "."))
             (Cat (Star Space) (lits (T section)))))).

Definition section_present (content : text) (section : string) : bool :=
  match search ignorecase (section_pattern section) content with
  | Some _ => true
  | None => false
  end.

Definition validate_sections (content : text) (required_sections : list string)
  : list string * list string :=
  fold_left
    (fun (acc : list string * list string) section =>
       let (found, missing) := acc in
       if section_present content section
       then (found ++ [section], missing)
       else (found, missing ++ [section]))
    required_sections ([], []).

(** ** Quality scanner *)

(** A dictionary with string keys, kept in insertion order. *)
Definition dict : Type := list (string * nat).

Fixpoint dict_set (d : dict) (k : string) (v : nat) : dict :=
  match d with
  | [] => [(k, v)]
  | (k', v') :: d' =>
      if String.eqb k' k then (k', v) :: d' else (k', v') :: dict_set d' k v
  end.

Fixpoint dict_get (d : dict) (k : string) : option nat :=
  match d with
  | [] => None
  | (k', v') :: d' => if String.eqb k' k then Some v' else dict_get d' k
  end.

Definition dict_mem (d : dict) (k : string) : bool :=
  match dict_get d k with Some _ => true | None => false end.

(** For a pattern with a group [re.findall] lists the text of the group
    in place of the whole match; the script uses the length of the list
    only. *)
Definition check_quality (content : text) : dict :=
  fold_left
    (fun (issues : dict) (check : string * regex) =>
       let (check_name, pattern) := check in
       let matches := findall ignorecase pattern content in
       match matches with
       | [] => issues
       | _ :: _ => dict_set issues check_name (List.length matches)
       end)
    QUALITY_PATTERNS [].

(** ** Statistics *)

(** [- \[[x ]\] .+] *)
Definition criteria_re : regex :=
  Cat (lits (T "- ["))
    (Cat (Ch (OneOf (T "x "))) (Cat (lits (T "] ")) (Plus Dot))).

Definition count_acceptance_criteria (content : text) : nat :=
  List.length (findall ignorecase criteria_re content).

(** Three backticks. *)
Definition fence : text := T "```".

Definition check_code_blocks (content : text) : nat :=
  List.length (findall no_flags (lits fence) content) / 2.

(** [^\|.+\|$] *)
Definition table_row_re : regex :=
  Cat Bol (Cat (Ch (Lit "|")) (Cat (Plus Dot) (Cat (Ch (Lit "|")) Eol))).

Definition check_tables (content : text) : nat :=
  List.length (findall multiline table_row_re content).

(** [str.split(sep)] for a one-character separator. *)
Fixpoint split (sep : ascii) (s : text) : list text :=
  match s with
  | [] => [[]]
  | a :: s' =>
      if Ascii.eqb a sep then [] :: split sep s'
      else
        match split sep s' with
        | seg :: segs => (a :: seg) :: segs
        | [] => [[a]]
        end
  end.

Definition line_count (content : text) : nat :=
  List.length (split newline content).

(** ** Report and verdict *)

Inductive verdict : Type := FAILED | PASSED_WITH_WARNINGS | PASSED.

(** The lines the script prints, one constructor per [print] call, with
    the values spliced into the line. *)
Inductive line : Type :=
| NotFound (filepath : string)
| Validating (filepath : string)
| Rule
| MissingHeader (n : nat)
| MissingItem (section : string)
| AllPresent (n : nat)
| QualityHeader
| QualityItem (issue_name : string) (count : nat)
| NoQualityIssues
| StatsHeader
| StatLines (n : nat)
| StatCriteria (n : nat)
| StatCodeBlocks (n : nat)
| StatTableRows (n : nat)
| RecsHeader
| RecCriteria (n : nat)
| RecCodeExamples (n : nat)
| RecTables
| RecBrief (n : nat)
| RecLong (n : nat)
| VerdictLine (v : verdict).

(** [str.replace(old, new)] for single characters. *)
Definition replace (old new : ascii) (s : text) : text :=
  map (fun a => if Ascii.eqb a old then new else a) s.

(** [str.title()]: a letter is put in upper case after a character
    that is not a letter and in lower case after a letter. *)
Fixpoint title_from (after_letter : bool) (s : text) : text :=
  match s with
  | [] => []
  | a :: s' =>
      (if after_letter then lower a else upper a) :: title_from (is_alpha a) s'
  end.

Definition title (s : text) : text := title_from false s.

Definition issue_title (issue : string) : string :=
  string_of_list_ascii (title (replace "_" " " (T issue))).

(** The file system as the script sees it: [None] for a path that does
    not exist, the text of the file otherwise. *)
Definition files : Type := string -> option text.

Definition validate_spec (fs : files) (filepath : string) (quick : bool)
  : list line * bool :=
  match fs filepath with
  | None => ([NotFound filepath], false)
  | Some content =>
      let required :=
        if quick then QUICK_SPEC_SECTIONS else FULL_SPEC_SECTIONS in
      let (found, missing) := validate_sections content required in
      let issues := check_quality content in
      let criteria_count := count_acceptance_criteria content in
      let code_blocks := check_code_blocks content in
      let tables := check_tables content in
      let line_count := line_count content in
      let has_critical_issues :=
        (0 <? List.length missing) || dict_mem issues "unresolved_placeholders" in
      let out :=
        [Validating filepath; Rule]
        ++ match missing with
           | _ :: _ =>
               MissingHeader (List.length missing) :: map MissingItem missing
           | [] => [AllPresent (List.length required)]
           end
        ++ match issues with
           | _ :: _ =>
               QualityHeader
               :: map (fun ic : string * nat =>
                         QualityItem (issue_title (fst ic)) (snd ic)) issues
           | [] => [NoQualityIssues]
           end
        ++ [StatsHeader; StatLines line_count; StatCriteria criteria_count;
            StatCodeBlocks code_blocks; StatTableRows tables]
        ++ [RecsHeader]
        ++ (if criteria_count <? 3 then [RecCriteria criteria_count] else [])
        ++ (if (code_blocks <? 2) && negb quick
            then [RecCodeExamples code_blocks] else [])
        ++ (if (tables <? 3) && negb quick then [RecTables] else [])
        ++ (if (line_count <? 100) && negb quick
            then [RecBrief line_count] else [])
        ++ (if 500 <? line_count then [RecLong line_count] else [])
        ++ [Rule] in
      if has_critical_issues then (out ++ [VerdictLine FAILED], false)
      else
        match issues with
        | _ :: _ => (out ++ [VerdictLine PASSED_WITH_WARNINGS], true)
        | [] => (out ++ [VerdictLine PASSED], true)
        end
  end.

(** ** Driver *)

(** The loop of [main] over [args.files] and the exit status handed to
    [sys.exit]; [args.quick] is the flag of the command line. *)
Definition main (fs : files) (args_files : list string) (args_quick : bool)
  : list line * nat :=
  let (out, all_passed) :=
    fold_left
      (fun (st : list line * bool) filepath =>
         let (out, all_passed) := st in
         let (printed, ok) := validate_spec fs filepath args_quick in
         (out ++ printed, if negb ok then false else all_passed))
      args_files ([], true) in
  (out, if all_passed then 0 else 1).

(** ** Notions used in the statements *)

(** Number of occurrences of a character. *)
Definition count_char (c : ascii) (s : text) : nat :=
  List.length (filter (fun a => Ascii.eqb a c) s).

(** Segments put back together with a separator between them. *)
Fixpoint join (sep : ascii) (segs : list text) : text :=
  match segs with
  | [] => []
  | seg :: rest =>
      match rest with
      | [] => seg
      | _ :: _ => seg ++ sep :: join sep rest
      end
  end.

Definition is_tick (a : ascii) : bool := Ascii.eqb "`" a.

(** Fence delimiters of a document, read left to right: three
    backticks in a row make one delimiter and are used up by it. *)
Fixpoint fence_count (s : text) : nat :=
  match s with
  | [] => 0
  | a :: s1 =>
      match s1 with
      | b :: c :: s3 =>
          if is_tick a && is_tick b && is_tick c
          then S (fence_count s3)
          else fence_count s1
      | _ => fence_count s1
      end
  end.

Definition count_of (pattern : regex) (content : text) : nat :=
  List.length (findall ignorecase pattern content).

(** What the dictionary holds for a check: nothing when it has no
    match, the number of matches otherwise. *)
Definition entry_of (pattern : regex) (content : text) : option nat :=
  match count_of pattern content with
  | 0 => None
  | S n => Some (S n)
  end.

(** The verdict as the last lines of [validate_spec] decide it. *)
Definition decide_verdict (missing : list string) (issues : dict) : verdict :=
  if (0 <? List.length missing) || dict_mem issues "unresolved_placeholders"
  then FAILED
  else match issues with
       | _ :: _ => PASSED_WITH_WARNINGS
       | [] => PASSED
       end.

Definition required_for (quick : bool) : list string :=
  if quick then QUICK_SPEC_SECTIONS else FULL_SPEC_SECTIONS.

(** The character before the position reached after reading [s]. *)
Fixpoint last_char (prev : option ascii) (s : text) : option ascii :=
  match s with
  | [] => prev
  | a :: s' => last_char (Some a) s'
  end.

(** [denote fl r prev s1 s2]: the pattern [r] matches the text [s1] when
    [prev] is the character before it and [s2] the text after it. *)
Fixpoint denote (fl : flags) (r : regex) (prev : option ascii) (s1 s2 : text) : Prop :=
  match r with
  | Eps => s1 = []
  | Ch c => exists a, s1 = [a] /\ cls_match fl c a = true
  | Star c => forallb (cls_match fl c) s1 = true
  | Cat r1 r2 =>
      exists u v, s1 = u ++ v
                  /\ denote fl r1 prev u (v ++ s2)
                  /\ denote fl r2 (last_char prev u) v s2
  | Alt r1 r2 => denote fl r1 prev s1 s2 \/ denote fl r2 prev s1 s2
  | WordB => s1 = [] /\ at_boundary prev s2 = true
  | Bol => s1 = [] /\ at_bol fl prev = true
  | Eol => s1 = [] /\ at_eol fl s2 = true
  end.

(** A continuation succeeds after some match of the pattern. *)
Definition reaches (fl : flags) (r : regex) (k : cont) (prev : option ascii) (s : text)
  : Prop :=
  exists s1 s2, s = s1 ++ s2 /\ denote fl r prev s1 s2
                /\ k (last_char prev s1) s2 <> None.

(** The texts the section pattern matches: two [#], one or more
    whitespace characters, digits, an optional dot, whitespace, and the
    name in any letter case. *)
Definition heading_match (section : string) (s : text) : Prop :=
  exists ws label dot ws' name,
    s = T "##" ++ ws ++ label ++ dot ++ ws' ++ name
    /\ ws <> []
    /\ forallb is_space ws = true
    /\ forallb is_digit label = true
    /\ (dot = [] \/ dot = T ".")
    /\ forallb is_space ws' = true
    /\ map lower name = map lower (T section).

(** A label the pattern reads between the marker and the name: digits,
    an optional dot, and whitespace (any of them may be absent). *)
Definition simple_label (label : text) : Prop :=
  exists digits dot ws,
    label = digits ++ dot ++ ws
    /\ forallb is_digit digits = true
    /\ (dot = [] \/ dot = T ".")
    /\ forallb is_space ws = true.

(** A heading of level [level] for a name, somewhere in the document. *)
Definition has_heading (content : text) (level : nat) (section : string) : Prop :=
  exists before label name after,
    content = before ++ repeat "#"%char level ++ T " " ++ label ++ name ++ after
    /\ simple_label label
    /\ map lower name = map lower (T section).

(** The texts the empty-table pattern matches: three pipes with nothing
    but whitespace between them. *)
Definition empty_cells (s : text) : Prop :=
  exists ws1 ws2,
    s = T "|" ++ ws1 ++ T "|" ++ ws2 ++ T "|"
    /\ forallb is_space ws1 = true
    /\ forallb is_space ws2 = true.

(** The tokens of the placeholder pattern. *)
Definition placeholder_tokens : list text :=
  map T [ "TODO"; "TBD"; "PLACEHOLDER"; "XXX"; "FIXME" ].

(** The texts the placeholder pattern matches: one of the tokens, in
    any letter case, in square brackets. *)
Definition bracketed_token (s : text) : Prop :=
  exists tok word,
    s = T "[" ++ tok ++ T "]"
    /\ In word placeholder_tokens
    /\ map lower tok = map lower word.

(** ** The rules as the specification words them *)

(** The rule as the specification words it: a line that starts with one
    or more [#], a space, an optional numeric label such as "1." or
    "2.1", and the name in any letter case. *)
Definition numeric_label (label : text) : Prop :=
  label = []
  \/ exists core,
       core <> []
       /\ forallb (fun a => is_digit a || Ascii.eqb a ".") core = true
       /\ label = core ++ T " ".

Definition spec_heading (section : string) (ln : text) : Prop :=
  exists level label name rest,
    ln = repeat "#"%char (S level) ++ T " " ++ label ++ name ++ rest
    /\ numeric_label label
    /\ map lower name = map lower (T section).

Definition spec_present (content : text) (section : string) : Prop :=
  exists ln, In ln (split newline content) /\ spec_heading section ln.

(** The rule as the specification words it: two pipes with nothing but
    whitespace between them. *)
Definition spec_empty_row (content : text) : Prop :=
  exists before ws after,
    content = before ++ T "|" ++ ws ++ T "|" ++ after
    /\ forallb is_space ws = true.

(** ** Sample documents *)

(** A file system holding one file. *)
Definition one_file (path : string) (content : text) : files :=
  fun p => if String.eqb p path then Some content else None.

Definition scenario_a : text :=
  T "## What
Export the report as CSV.
## Why
Finance asks for it every month.
## How
Reuse the table serializer.
## Acceptance Criteria
- [x] Button on the report page
- [x] File opens in a spreadsheet
- [x] Dates in ISO format
".

Definition scenario_b : text :=
  T "# Checkout flow
## 1. Overview
## 2. User Stories
## 3. Technical design
## 4. UI/UX
## 5. Edge Cases
## 6. Implementation plan
".

Definition mixed_headings : text :=
  T "## What
### 2. why
#### 3 HOW
## 4.  Acceptance criteria
".

Definition level_one_doc : text :=
  T "# What
# Why
# How
# Acceptance Criteria
".

Definition three_maybes : text :=
  T "Maybe we cache it. The limit is maybe ten, maybe more.".

Definition etc_in_prose : text :=
  T "Support CSV, JSON, etc. in the exporter.".

(** ** Notions used in the further properties *)

(** The words of the vague-language pattern. *)
Definition vague_words : list text :=
  map T [ "maybe"; "probably"; "might"; "could"; "should consider"; "etc." ].

(** One of the words, in any letter case. *)
Definition hedging_word (w : text) : Prop :=
  exists word, In word vague_words /\ map lower w = map lower word.

(** An unchecked box holding an opening bracket. *)
Definition unchecked_bracket : text := T "- [ ] [".

(** A text without a line feed. *)
Definition one_line (ln : text) : bool :=
  forallb (fun a => negb (Ascii.eqb a newline)) ln.

(** A text that is empty or starts with a line feed: what can follow
    the end of a line. *)
Definition line_end (s : text) : bool :=
  match s with
  | [] => true
  | a :: _ => Ascii.eqb a newline
  end.

(** A line that starts with a pipe, ends with another pipe and has at
    least one character between the two. *)
Definition table_row (ln : text) : bool :=
  (3 <=? List.length ln)
  && Ascii.eqb (hd " "%char ln) "|"
  && Ascii.eqb (last ln " "%char) "|".

(** A text starts with characters passing the tests, one test per
    character. *)
Fixpoint prefix_by (tests : list (ascii -> bool)) (s : text) : bool :=
  match tests with
  | [] => true
  | t :: ts =>
      match s with
      | [] => false
      | a :: s' => t a && prefix_by ts s'
      end
  end.

Definition is_char (c a : ascii) : bool := Ascii.eqb a c.

(** The mark of a checkbox: x in either case, or a blank. *)
Definition box_mark (a : ascii) : bool :=
  Ascii.eqb a "x" || Ascii.eqb a "X" || Ascii.eqb a " ".

Definition not_newline (a : ascii) : bool := negb (Ascii.eqb a newline).

(** Tests that no line feed passes. *)
Definition on_a_line (tests : list (ascii -> bool)) : Prop :=
  Forall (fun t : ascii -> bool =>
            forall a, t a = true -> Ascii.eqb a newline = false) tests.

(** A checkbox item: dash, blank, a box with its mark, blank, and one
    more character on the line. *)
Definition checkbox_item : list (ascii -> bool) :=
  [ is_char "-"; is_char " "; is_char "["; box_mark; is_char "]";
    is_char " "; not_newline ].

Definition starts_criterion (s : text) : bool := prefix_by checkbox_item s.

(** A line holding a checkbox item somewhere. *)
Fixpoint has_criterion (ln : text) : bool :=
  match ln with
  | [] => false
  | _ :: ln' => starts_criterion ln || has_criterion ln'
  end.

(** The text from the next line feed on. *)
Fixpoint rest_of_line (s : text) : text :=
  match s with
  | [] => []
  | a :: s' => if Ascii.eqb a newline then s else rest_of_line s'
  end.

(** The kinds of report lines. *)
Definition is_section_line (l : line) : bool :=
  match l with
  | MissingHeader _ | MissingItem _ | AllPresent _ => true
  | _ => false
  end.

Definition is_quality_line (l : line) : bool :=
  match l with
  | QualityHeader | QualityItem _ _ | NoQualityIssues => true
  | _ => false
  end.

Definition is_recommendation (l : line) : bool :=
  match l with
  | RecCriteria _ | RecCodeExamples _ | RecTables | RecBrief _ | RecLong _ =>
      true
  | _ => false
  end.

(** The blocks of a report. *)
Definition section_lines (required missing : list string) : list line :=
  match missing with
  | _ :: _ => MissingHeader (List.length missing) :: map MissingItem missing
  | [] => [AllPresent (List.length required)]
  end.

Definition quality_lines (issues : dict) : list line :=
  match issues with
  | _ :: _ =>
      QualityHeader
      :: map (fun ic : string * nat =>
                QualityItem (issue_title (fst ic)) (snd ic)) issues
  | [] => [NoQualityIssues]
  end.

Definition stat_lines (content : text) : list line :=
  [ StatsHeader; StatLines (line_count content);
    StatCriteria (count_acceptance_criteria content);
    StatCodeBlocks (check_code_blocks content);
    StatTableRows (check_tables content) ].

Definition rec_lines (quick : bool) (content : text) : list line :=
  (if count_acceptance_criteria content <? 3
   then [RecCriteria (count_acceptance_criteria content)] else [])
  ++ (if (check_code_blocks content <? 2) && negb quick
      then [RecCodeExamples (check_code_blocks content)] else [])
  ++ (if (check_tables content <? 3) && negb quick then [RecTables] else [])
  ++ (if (line_count content <? 100) && negb quick
      then [RecBrief (line_count content)] else [])
  ++ (if 500 <? line_count content then [RecLong (line_count content)] else []).

(** The entries of the quality dictionary, one check after the other. *)
Definition quality_entries (content : text) : dict :=
  flat_map
    (fun check : string * regex =>
       match count_of (snd check) content with
       | 0 => []
       | S n => [(fst check, S n)]
       end)
    QUALITY_PATTERNS.

(** The quality checks under the names the report prints. *)
Definition quality_titles : list (string * regex) :=
  [ ("Unresolved Placeholders", unresolved_placeholders_re);
    ("Empty Tables", empty_tables_re);
    ("Missing Acceptance Criteria", missing_acceptance_criteria_re);
    ("Vague Language", vague_language_re) ].

Definition quality_items (content : text) : list line :=
  flat_map
    (fun check : string * regex =>
       match count_of (snd check) content with
       | 0 => []
       | S n => [QualityItem (fst check) (S n)]
       end)
    quality_titles.

(** ** Tactics *)

Ltac each_ascii a :=
  let b0 := fresh in let b1 := fresh in let b2 := fresh in
  let b3 := fresh in let b4 := fresh in let b5 := fresh in
  let b6 := fresh in let b7 := fresh in
  destruct a as [b0 b1 b2 b3 b4 b5 b6 b7];
  destruct b0, b1, b2, b3, b4, b5, b6, b7.

(** * Properties *)

(** ** Line count *)

Section Lines.
Variable sep : ascii.

Lemma split_not_nil (s : text) : split sep s <> [].
Proof.
  induction s as [|a s IH]; simpl; [discriminate|].
  destruct (Ascii.eqb a sep); [discriminate|].
  destruct (split sep s); discriminate.
Qed.

Lemma split_length (s : text) :
  List.length (split sep s) = S (count_char sep s).
Proof.
  unfold count_char.
  induction s as [|a s IH]; simpl; [reflexivity|].
  destruct (Ascii.eqb a sep); simpl.
  - now rewrite IH.
  - pose proof (split_not_nil s) as Hne.
    destruct (split sep s) as [|seg segs]; [contradiction|exact IH].
Qed.

Lemma join_split (s : text) : join sep (split sep s) = s.
Proof.
  induction s as [|a s IH]; simpl; [reflexivity|].
  destruct (Ascii.eqb a sep) eqn:E.
  - apply Ascii.eqb_eq in E; subst a.
    pose proof (split_not_nil s) as Hne.
    change (join sep ([] :: split sep s))
      with (match split sep s with
            | [] => [] | _ :: _ => [] ++ sep :: join sep (split sep s) end).
    destruct (split sep s) as [|seg segs]; [contradiction|].
    rewrite IH. reflexivity.
  - pose proof (split_not_nil s) as Hne.
    destruct (split sep s) as [|seg segs]; [contradiction|].
    destruct segs; simpl in *; now rewrite <- IH.
Qed.

Lemma split_segments_clean (s : text) :
  Forall (fun seg => count_char sep seg = 0) (split sep s).
Proof.
  induction s as [|a s IH]; simpl.
  - constructor; [reflexivity|constructor].
  - destruct (Ascii.eqb a sep) eqn:E.
    + constructor; [reflexivity|exact IH].
    + pose proof (split_not_nil s) as Hne.
      destruct (split sep s) as [|seg segs]; [contradiction|].
      inversion IH; subst. constructor; [|assumption].
      unfold count_char in *. simpl. now rewrite E.
Qed.

Lemma split_trailing (s : text) :
  split sep (s ++ [sep]) = split sep s ++ [[]].
Proof.
  induction s as [|a s IH]; simpl.
  - now rewrite Ascii.eqb_refl.
  - destruct (Ascii.eqb a sep); [now rewrite IH|].
    rewrite IH. pose proof (split_not_nil s) as Hne.
    destruct (split sep s); [contradiction|reflexivity].
Qed.
End Lines.

(** C9: the line count is the number of segments between line feeds,
    which put back together with line feeds give the document and
    contain none themselves; it is one more than the number of line
    feeds, a document ending in a line feed has an empty last segment
    that is counted, and the empty document has one line. *)
Theorem line_count_segments (content : text) :
  line_count content = List.length (split newline content)
  /\ join newline (split newline content) = content
  /\ Forall (fun seg => count_char newline seg = 0) (split newline content)
  /\ line_count content = 1 + count_char newline content
  /\ split newline (content ++ [newline]) = split newline content ++ [[]]
  /\ line_count (content ++ [newline]) = 1 + line_count content
  /\ line_count [] = 1.
Proof.
  unfold line_count.
  repeat split.
  - apply join_split.
  - apply split_segments_clean.
  - apply split_length.
  - apply split_trailing.
  - rewrite split_trailing, length_app. simpl. lia.
Qed.

(** ** Section checker: order and partition *)

Lemma validate_sections_acc (content : text) (required found missing : list string) :
  fold_left
    (fun (acc : list string * list string) section =>
       let (found, missing) := acc in
       if section_present content section
       then (found ++ [section], missing)
       else (found, missing ++ [section]))
    required (found, missing)
  = (found ++ filter (section_present content) required,
     missing ++ filter (fun s => negb (section_present content s)) required).
Proof.
  revert found missing.
  induction required as [|s required IH]; intros found missing; simpl.
  - now rewrite !app_nil_r.
  - destruct (section_present content s); simpl; rewrite IH, <- app_assoc;
      reflexivity.
Qed.

Lemma validate_sections_filter (content : text) (required : list string) :
  validate_sections content required
  = (filter (section_present content) required,
     filter (fun s => negb (section_present content s)) required).
Proof. unfold validate_sections. now rewrite validate_sections_acc. Qed.

Lemma filter_partition_perm {A : Type} (p : A -> bool) (l : list A) :
  Permutation (filter p l ++ filter (fun x => negb (p x)) l) l.
Proof.
  induction l as [|x l IH]; simpl; [constructor|].
  destruct (p x); simpl.
  - now constructor.
  - symmetry. apply Permutation_cons_app. now symmetry.
Qed.

Lemma missing_nonempty (content : text) (required : list string) :
  snd (validate_sections content required) <> []
  <-> exists s, In s required /\ section_present content s = false.
Proof.
  rewrite validate_sections_filter; simpl. split.
  - intros Hne.
    destruct (filter _ required) as [|s l] eqn:E; [contradiction|].
    assert (Hin : In s (filter (fun s => negb (section_present content s)) required))
      by (rewrite E; now left).
    apply filter_In in Hin. destruct Hin as [Hin Hs].
    exists s. split; [assumption|]. now apply negb_true_iff.
  - intros [s [Hin Hs]] E.
    assert (Hin' : In s (filter (fun s => negb (section_present content s)) required))
      by (apply filter_In; split; [assumption|now rewrite Hs]).
    now rewrite E in Hin'.
Qed.

(** C8: on names that stand for themselves in a pattern, the found list
    is the required list with the absent names dropped and the missing
    list is the required list with the present names dropped, so both
    keep the order of the required list and together they hold each
    required name once; a full-spec document in which exactly the
    Security and Performance headings are absent has exactly these two
    names missing, in this order. *)
Theorem validate_sections_partition (content : text) (required : list string)
  (Hplain : forallb plain_name required = true) :
  let (found, missing) := validate_sections content required in
  found = filter (section_present content) required
  /\ missing = filter (fun s => negb (section_present content s)) required
  /\ Permutation (found ++ missing) required
  /\ (forall s, In s found <-> In s required /\ section_present content s = true)
  /\ (forall s, In s missing <-> In s required /\ section_present content s = false)
  /\ (required = FULL_SPEC_SECTIONS ->
      (forall s, In s required ->
         section_present content s
         = negb (String.eqb s "Security" || String.eqb s "Performance")) ->
      missing = ["Security"; "Performance"]).
Proof.
  rewrite validate_sections_filter.
  split; [reflexivity|]. split; [reflexivity|].
  split; [apply filter_partition_perm|].
  split; [intros s; apply filter_In|].
  split.
  - intros s. rewrite filter_In, negb_true_iff. reflexivity.
  - intros -> Hp. unfold FULL_SPEC_SECTIONS in *. simpl.
    repeat (rewrite Hp by (simpl; tauto)). reflexivity.
Qed.

Lemma validate_sections_partition_witness :
  let (found, missing) := validate_sections scenario_b FULL_SPEC_SECTIONS in
  found = filter (section_present scenario_b) FULL_SPEC_SECTIONS
  /\ missing = filter (fun s => negb (section_present scenario_b s)) FULL_SPEC_SECTIONS
  /\ Permutation (found ++ missing) FULL_SPEC_SECTIONS
  /\ (forall s, In s found <-> In s FULL_SPEC_SECTIONS /\ section_present scenario_b s = true)
  /\ (forall s, In s missing <-> In s FULL_SPEC_SECTIONS /\ section_present scenario_b s = false)
  /\ (FULL_SPEC_SECTIONS = FULL_SPEC_SECTIONS ->
      (forall s, In s FULL_SPEC_SECTIONS ->
         section_present scenario_b s
         = negb (String.eqb s "Security" || String.eqb s "Performance")) ->
      missing = ["Security"; "Performance"]).
Proof.
  apply (validate_sections_partition scenario_b FULL_SPEC_SECTIONS).
  vm_compute. reflexivity.
Defined.

Example scenario_b_missing :
  validate_sections scenario_b FULL_SPEC_SECTIONS
  = ([ "Overview"; "User Stories"; "Technical"; "UI/UX"; "Edge Cases";
       "Implementation" ],
     [ "Security"; "Performance" ]).
Proof. vm_compute. reflexivity. Qed.

(** ** Quality scanner: the dictionary of counts *)

Lemma check_quality_entries (content : text) :
  dict_get (check_quality content) "unresolved_placeholders"
    = entry_of unresolved_placeholders_re content
  /\ dict_get (check_quality content) "empty_tables"
    = entry_of empty_tables_re content
  /\ dict_get (check_quality content) "missing_acceptance_criteria"
    = entry_of missing_acceptance_criteria_re content
  /\ dict_get (check_quality content) "vague_language"
    = entry_of vague_language_re content.
Proof.
  unfold entry_of, count_of, check_quality, QUALITY_PATTERNS.
  cbn [fold_left].
  generalize (findall ignorecase unresolved_placeholders_re content).
  generalize (findall ignorecase empty_tables_re content).
  generalize (findall ignorecase missing_acceptance_criteria_re content).
  generalize (findall ignorecase vague_language_re content).
  intros [|? ?] [|? ?] [|? ?] [|? ?]; repeat split; reflexivity.
Qed.

Lemma dict_get_In (d : dict) (k : string) (v : nat) :
  dict_get d k = Some v -> In k (map fst d).
Proof.
  induction d as [|[k' v'] d IH]; simpl; [discriminate|].
  destruct (String.eqb_spec k' k) as [->|_]; [now left|].
  intros H. right. now apply IH.
Qed.

Lemma check_quality_keys (content : text) (name : string) :
  dict_mem (check_quality content) name = true ->
  In name (map fst QUALITY_PATTERNS).
Proof.
  unfold dict_mem.
  destruct (dict_get (check_quality content) name) as [v|] eqn:E;
    [intros _|discriminate].
  apply dict_get_In in E. revert E.
  unfold check_quality, QUALITY_PATTERNS.
  cbn [fold_left].
  generalize (findall ignorecase unresolved_placeholders_re content).
  generalize (findall ignorecase empty_tables_re content).
  generalize (findall ignorecase missing_acceptance_criteria_re content).
  generalize (findall ignorecase vague_language_re content).
  intros [|? ?] [|? ?] [|? ?] [|? ?]; simpl; tauto.
Qed.

Lemma check_quality_empty (content : text) :
  check_quality content = [] <->
  (forall name pattern, In (name, pattern) QUALITY_PATTERNS ->
     findall ignorecase pattern content = []).
Proof.
  unfold check_quality, QUALITY_PATTERNS. cbn [fold_left]. split.
  - intros H name pattern Hin.
    destruct (findall ignorecase unresolved_placeholders_re content) eqn:E1;
    destruct (findall ignorecase empty_tables_re content) eqn:E2;
    destruct (findall ignorecase missing_acceptance_criteria_re content) eqn:E3;
    destruct (findall ignorecase vague_language_re content) eqn:E4;
    try discriminate H.
    simpl in Hin.
    destruct Hin as [Hin|[Hin|[Hin|[Hin|[]]]]]; inversion Hin; subst; assumption.
  - intros H.
    rewrite (H "unresolved_placeholders" unresolved_placeholders_re) by (simpl; tauto).
    rewrite (H "empty_tables" empty_tables_re) by (simpl; tauto).
    rewrite (H "missing_acceptance_criteria" missing_acceptance_criteria_re)
      by (simpl; tauto).
    rewrite (H "vague_language" vague_language_re) by (simpl; tauto).
    reflexivity.
Qed.

(** C7: the dictionary of the quality scanner has an entry for a check
    exactly when its pattern has a match, the entry is the number of
    matches, no other key occurs, and a document with three instances
    of "maybe" has 3 under vague language. *)
Theorem check_quality_counts (content : text) :
  (forall name pattern, In (name, pattern) QUALITY_PATTERNS ->
     dict_get (check_quality content) name = entry_of pattern content
     /\ (dict_mem (check_quality content) name = true
         <-> 1 <= List.length (findall ignorecase pattern content))
     /\ (forall n, dict_get (check_quality content) name = Some n ->
           n = List.length (findall ignorecase pattern content) /\ 1 <= n))
  /\ (forall name, dict_mem (check_quality content) name = true ->
        In name (map fst QUALITY_PATTERNS))
  /\ dict_get (check_quality three_maybes) "vague_language" = Some 3
  /\ check_quality three_maybes = [("vague_language", 3)].
Proof.
  split; [|split; [apply check_quality_keys|split; vm_compute; reflexivity]].
  intros name pattern Hin.
  assert (E : dict_get (check_quality content) name = entry_of pattern content).
  { destruct (check_quality_entries content) as (E1 & E2 & E3 & E4).
    simpl in Hin.
    destruct Hin as [Hin|[Hin|[Hin|[Hin|[]]]]]; inversion Hin; subst;
      assumption. }
  split; [exact E|].
  unfold dict_mem. rewrite E. unfold entry_of, count_of.
  destruct (List.length (findall ignorecase pattern content)) as [|n]; split.
  - split; [discriminate|lia].
  - intros ? [=].
  - split; [lia|reflexivity].
  - intros ? [= <-]. split; [reflexivity|lia].
Qed.

(** ** Verdict *)

Lemma validate_spec_verdict (fs : files) (filepath : string) (quick : bool)
  (content : text) :
  fs filepath = Some content ->
  let v := decide_verdict (snd (validate_sections content (required_for quick)))
             (check_quality content) in
  last (fst (validate_spec fs filepath quick)) Rule = VerdictLine v
  /\ snd (validate_spec fs filepath quick)
     = match v with FAILED => false | _ => true end.
Proof.
  intros H. unfold validate_spec, decide_verdict, required_for. rewrite H.
  destruct (validate_sections content
              (if quick then QUICK_SPEC_SECTIONS else FULL_SPEC_SECTIONS))
    as [found missing].
  cbv zeta. cbn [snd].
  destruct ((0 <? List.length missing)
            || dict_mem (check_quality content) "unresolved_placeholders").
  - cbn [fst snd]. now rewrite last_last.
  - destruct (check_quality content); cbn [fst snd]; now rewrite last_last.
Qed.

Lemma decide_verdict_failed (content : text) (required : list string) :
  decide_verdict (snd (validate_sections content required)) (check_quality content)
  = FAILED
  <-> (exists s, In s required /\ section_present content s = false)
      \/ 1 <= count_of unresolved_placeholders_re content.
Proof.
  rewrite <- missing_nonempty. unfold decide_verdict, dict_mem.
  destruct (check_quality_entries content) as (E & _). rewrite E.
  unfold entry_of.
  destruct (snd (validate_sections content required)) as [|s l];
    destruct (count_of unresolved_placeholders_re content) as [|n];
    cbn [List.length Nat.ltb Nat.leb orb].
  - split.
    + destruct (check_quality content); discriminate.
    + intros [H|H]; [now contradiction H|lia].
  - split; [right; lia|reflexivity].
  - split; [left; discriminate|reflexivity].
  - split; [left; discriminate|reflexivity].
Qed.

(** C2: for a file that exists, the validation returns false, with the
    FAILED line last, exactly when a required section is missing or the
    unresolved-placeholder check has a match; otherwise it returns true,
    with the PASSED WITH WARNINGS line when some other check has a match
    and the PASSED line when no check has one. *)
Theorem verdict_policy (fs : files) (filepath : string) (quick : bool)
  (content : text) (Hfile : fs filepath = Some content) :
  let result := validate_spec fs filepath quick in
  let critical :=
    (exists s, In s (required_for quick) /\ section_present content s = false)
    \/ 1 <= count_of unresolved_placeholders_re content in
  let other :=
    exists name pattern,
      In (name, pattern) QUALITY_PATTERNS
      /\ name <> "unresolved_placeholders"
      /\ 1 <= count_of pattern content in
  let none :=
    forall name pattern,
      In (name, pattern) QUALITY_PATTERNS -> count_of pattern content = 0 in
  (snd result = false <-> critical)
  /\ (last (fst result) Rule = VerdictLine FAILED <-> critical)
  /\ (~ critical -> other ->
      last (fst result) Rule = VerdictLine PASSED_WITH_WARNINGS
      /\ snd result = true)
  /\ (~ critical -> none ->
      last (fst result) Rule = VerdictLine PASSED /\ snd result = true)
  /\ (~ critical -> other \/ none).
Proof.
  intros result critical other none.
  destruct (validate_spec_verdict fs filepath quick content Hfile) as [Hl Hs].
  fold result in Hl, Hs.
  pose proof (decide_verdict_failed content (required_for quick)) as Hf.
  fold critical in Hf.
  set (v := decide_verdict (snd (validate_sections content (required_for quick)))
              (check_quality content)) in *.
  assert (Hnone : check_quality content = [] <-> none).
  { rewrite check_quality_empty. unfold none, count_of. split; intros H n p Hin.
    - now rewrite (H n p Hin).
    - specialize (H n p Hin). now apply length_zero_iff_nil. }
  assert (Hv : v <> FAILED ->
               v = match check_quality content with
                   | _ :: _ => PASSED_WITH_WARNINGS | [] => PASSED end).
  { unfold v, decide_verdict.
    destruct (_ || _); [intros C; now contradiction C|reflexivity]. }
  assert (Hother : other -> check_quality content <> []).
  { intros (n & p & Hin & _ & Hc) E. apply Hnone in E.
    specialize (E n p Hin). lia. }
  assert (Hcases : ~ critical -> other \/ none).
  { intros Hc.
    destruct (check_quality content) as [|[k c] d] eqn:Eq.
    - right. now apply Hnone.
    - left.
      assert (Hk : dict_mem (check_quality content) k = true).
      { unfold dict_mem. rewrite Eq. simpl. now rewrite String.eqb_refl. }
      pose proof (check_quality_keys content k Hk) as Hin.
      destruct (check_quality_entries content) as (E1 & E2 & E3 & E4).
      unfold dict_mem in Hk. unfold entry_of in *.
      assert (Hp : count_of unresolved_placeholders_re content = 0).
      { destruct (count_of unresolved_placeholders_re content); [reflexivity|].
        exfalso. apply Hc. right. lia. }
      simpl in Hin.
      destruct Hin as [<-|[<-|[<-|[<-|[]]]]].
      + rewrite E1, Hp in Hk. discriminate.
      + exists "empty_tables", empty_tables_re.
        split; [simpl; tauto|]. split; [discriminate|].
        rewrite E2 in Hk. destruct (count_of empty_tables_re content);
          [discriminate|lia].
      + exists "missing_acceptance_criteria", missing_acceptance_criteria_re.
        split; [simpl; tauto|]. split; [discriminate|].
        rewrite E3 in Hk.
        destruct (count_of missing_acceptance_criteria_re content);
          [discriminate|lia].
      + exists "vague_language", vague_language_re.
        split; [simpl; tauto|]. split; [discriminate|].
        rewrite E4 in Hk. destruct (count_of vague_language_re content);
          [discriminate|lia]. }
  repeat split.
  - intros H. apply Hf. rewrite Hs in H. destruct v; [reflexivity|discriminate..].
  - intros H. apply Hf in H. rewrite Hs, H. reflexivity.
  - intros H. apply Hf. rewrite Hl in H. now inversion H.
  - intros H. apply Hf in H. now rewrite Hl, H.
  - rewrite Hl, Hv by (intros C; apply Hf in C; contradiction).
    apply Hother in H0. now destruct (check_quality content).
  - rewrite Hs, Hv by (intros C; apply Hf in C; contradiction).
    now destruct (check_quality content).
  - rewrite Hl, Hv by (intros C; apply Hf in C; contradiction).
    apply Hnone in H0. now rewrite H0.
  - rewrite Hs, Hv by (intros C; apply Hf in C; contradiction).
    now destruct (check_quality content).
  - exact Hcases.
Qed.

Lemma verdict_policy_witness :
  snd (validate_spec (one_file "quick.md" scenario_a) "quick.md" true) = false
  <-> (exists s, In s (required_for true) /\ section_present scenario_a s = false)
      \/ 1 <= count_of unresolved_placeholders_re scenario_a.
Proof.
  exact (proj1 (verdict_policy (one_file "quick.md" scenario_a) "quick.md" true
                  scenario_a eq_refl)).
Defined.

Example scenario_a_passes :
  validate_spec (one_file "quick.md" scenario_a) "quick.md" true
  = ([ Validating "quick.md"; Rule; AllPresent 4; NoQualityIssues;
       StatsHeader; StatLines 11; StatCriteria 3; StatCodeBlocks 0;
       StatTableRows 0; RecsHeader; Rule; VerdictLine PASSED ], true).
Proof. vm_compute. reflexivity. Qed.

Example placeholder_fails :
  validate_spec (one_file "quick.md" (scenario_a ++ T "[TODO]")) "quick.md" true
  = ([ Validating "quick.md"; Rule; AllPresent 4; QualityHeader;
       QualityItem "Unresolved Placeholders" 1;
       StatsHeader; StatLines 11; StatCriteria 3; StatCodeBlocks 0;
       StatTableRows 0; RecsHeader; Rule; VerdictLine FAILED ], false).
Proof. vm_compute. reflexivity. Qed.

(** ** Driver *)

Lemma main_loop (fs : files) (quick : bool) (fl : list string)
  (out : list line) (all_passed : bool) :
  fold_left
    (fun (st : list line * bool) filepath =>
       let (out, all_passed) := st in
       let (printed, ok) := validate_spec fs filepath quick in
       (out ++ printed, if negb ok then false else all_passed))
    fl (out, all_passed)
  = (out ++ concat (map (fun f => fst (validate_spec fs f quick)) fl),
     all_passed && forallb (fun f => snd (validate_spec fs f quick)) fl).
Proof.
  revert out all_passed.
  induction fl as [|f fl IH]; intros out all_passed; simpl.
  - now rewrite app_nil_r, andb_true_r.
  - destruct (validate_spec fs f quick) as [printed ok]. rewrite IH.
    cbn [fst snd]. rewrite <- app_assoc.
    destruct ok, all_passed; reflexivity.
Qed.

(** C3: the exit status is 0 exactly when every file supplied passes
    validation and 1 otherwise; a path that does not exist prints the
    not-found line alone and counts as failed; and the report of the run
    is the reports of all the files, in the order supplied, whatever the
    outcome of the files before. *)
Theorem exit_status_all_passed (fs : files) (args_files : list string)
  (args_quick : bool) :
  (snd (main fs args_files args_quick) = 0
   <-> forall f, In f args_files -> snd (validate_spec fs f args_quick) = true)
  /\ (snd (main fs args_files args_quick) = 1
      <-> exists f, In f args_files /\ snd (validate_spec fs f args_quick) = false)
  /\ (forall f, fs f = None ->
        validate_spec fs f args_quick = ([NotFound f], false))
  /\ fst (main fs args_files args_quick)
     = concat (map (fun f => fst (validate_spec fs f args_quick)) args_files)
  /\ (forall before f after,
        args_files = before ++ f :: after -> fs f = None ->
        fst (main fs args_files args_quick)
        = fst (main fs before args_quick) ++ [NotFound f]
          ++ fst (main fs after args_quick)).
Proof.
  assert (Hmain : forall l,
            main fs l args_quick
            = (concat (map (fun f => fst (validate_spec fs f args_quick)) l),
               if forallb (fun f => snd (validate_spec fs f args_quick)) l
               then 0 else 1)).
  { intros l. unfold main. rewrite main_loop. reflexivity. }
  assert (Hnf : forall f, fs f = None ->
                  validate_spec fs f args_quick = ([NotFound f], false)).
  { intros f H. unfold validate_spec. now rewrite H. }
  rewrite Hmain. cbn [fst snd].
  split; [|split; [|split; [exact Hnf|split; [reflexivity|]]]].
  - rewrite <- forallb_forall.
    destruct (forallb _ args_files); split; intros; try discriminate;
      reflexivity.
  - destruct (forallb _ args_files) eqn:E; split.
    + discriminate.
    + intros (f & Hin & Hf). rewrite forallb_forall in E.
      rewrite (E f Hin) in Hf. discriminate.
    + intros _.
      assert (Hex : existsb (fun f => negb (snd (validate_spec fs f args_quick)))
                      args_files = true).
      { clear -E. induction args_files as [|f l IH]; simpl in *; [discriminate|].
        destruct (snd (validate_spec fs f args_quick)); simpl in *; auto. }
      apply existsb_exists in Hex. destruct Hex as (f & Hin & Hf).
      exists f. split; [assumption|]. now apply negb_true_iff.
    + reflexivity.
  - intros before f after -> Hf. rewrite !Hmain. cbn [fst].
    rewrite map_app, concat_app. cbn [map concat].
    rewrite (Hnf f Hf). reflexivity.
Qed.

Example scenario_d :
  let fs := one_file "quick.md" scenario_a in
  main fs ["gone.md"; "quick.md"] true
  = (NotFound "gone.md" :: fst (validate_spec fs "quick.md" true), 1)
  /\ snd (validate_spec fs "quick.md" true) = true.
Proof. vm_compute. split; reflexivity. Qed.

(** ** What the matcher accepts *)

Lemma last_char_app (prev : option ascii) (u v : text) :
  last_char prev (u ++ v) = last_char (last_char prev u) v.
Proof. revert prev. induction u as [|a u IH]; intros prev; simpl; auto. Qed.

Section Denotation.
Variable fl : flags.

Lemma star_loop_reaches (c : cls) (k : cont) (s : text) :
  forall prev, star_loop fl c k prev s <> None <-> reaches fl (Star c) k prev s.
Proof.
  unfold reaches.
  induction s as [|a s IH]; intros prev; simpl.
  - split.
    + intros H. exists [], []. auto.
    + intros (s1 & s2 & E & _ & H).
      symmetry in E. apply app_eq_nil in E. destruct E; subst. exact H.
  - destruct (cls_match fl c a) eqn:Ea.
    + split.
      * intros H.
        destruct (star_loop fl c k (Some a) s) eqn:El.
        -- assert (Hl : star_loop fl c k (Some a) s <> None)
             by (rewrite El; discriminate).
           apply IH in Hl. destruct Hl as (s1 & s2 & E & Hs & Hk).
           exists (a :: s1), s2. subst s. simpl. rewrite Ea. auto.
        -- exists [], (a :: s). auto.
      * intros (s1 & s2 & E & Hs & Hk).
        destruct s1 as [|b s1]; simpl in *.
        -- subst s2. destruct (star_loop fl c k (Some a) s);
             [discriminate|exact Hk].
        -- injection E as <- ->.
           apply andb_true_iff in Hs. destruct Hs as [_ Hs].
           assert (Hl : star_loop fl c k (Some a) (s1 ++ s2) <> None)
             by (apply IH; exists s1, s2; auto).
           destruct (star_loop fl c k (Some a) (s1 ++ s2));
             [discriminate|now contradiction Hl].
    + split.
      * intros H. exists [], (a :: s). auto.
      * intros (s1 & s2 & E & Hs & Hk).
        destruct s1 as [|b s1]; simpl in *.
        -- now subst s2.
        -- injection E as <- ->. rewrite Ea in Hs. discriminate.
Qed.

(** The matcher succeeds exactly when some split of the text is
    matched by the pattern and accepted by the continuation. *)
Lemma m_reaches (r : regex) :
  forall k prev s, m fl r k prev s <> None <-> reaches fl r k prev s.
Proof.
  unfold reaches.
  induction r as [|c|c|r1 IH1 r2 IH2|r1 IH1 r2 IH2| | |]; intros k prev s;
    simpl.
  - split.
    + intros H. exists [], s. auto.
    + intros (s1 & s2 & -> & -> & H). exact H.
  - destruct s as [|a s].
    + split; [intros H; now contradiction H|].
      intros (s1 & s2 & E & (a & -> & _) & _). discriminate.
    + destruct (cls_match fl c a) eqn:Ea; split.
      * intros H. exists [a], s. repeat split; eauto.
      * intros (s1 & s2 & E & (b & -> & Hb) & H).
        injection E as <- <-. exact H.
      * intros H; now contradiction H.
      * intros (s1 & s2 & E & (b & -> & Hb) & H).
        injection E as <- <-. congruence.
  - apply star_loop_reaches.
  - rewrite IH1. split.
    + intros (u & s' & -> & H1 & H2).
      apply IH2 in H2. destruct H2 as (v & s2 & -> & H2 & Hk).
      exists (u ++ v), s2. rewrite <- app_assoc, last_char_app.
      repeat split; auto. exists u, v. auto.
    + intros (s1 & s2 & -> & (u & v & -> & H1 & H2) & Hk).
      exists u, (v ++ s2). rewrite <- app_assoc. repeat split; auto.
      apply IH2. exists v, s2. rewrite <- last_char_app. auto.
  - split.
    + intros H. destruct (m fl r1 k prev s) eqn:E1.
      * assert (H1 : m fl r1 k prev s <> None) by (rewrite E1; discriminate).
        apply IH1 in H1. destruct H1 as (s1 & s2 & E & Hd & Hk).
        exists s1, s2. auto.
      * apply IH2 in H. destruct H as (s1 & s2 & E & Hd & Hk).
        exists s1, s2. auto.
    + intros (s1 & s2 & E & [Hd|Hd] & Hk).
      * assert (H1 : m fl r1 k prev s <> None)
          by (apply IH1; exists s1, s2; auto).
        destruct (m fl r1 k prev s); [discriminate|now contradiction H1].
      * destruct (m fl r1 k prev s); [discriminate|].
        apply IH2. exists s1, s2. auto.
  - destruct (at_boundary prev s) eqn:Eb; split.
    + intros H. exists [], s. auto.
    + intros (s1 & s2 & -> & (-> & _) & H). exact H.
    + intros H; now contradiction H.
    + intros (s1 & s2 & -> & (-> & Hb) & H). simpl in Eb. congruence.
  - destruct (at_bol fl prev) eqn:Eb; split.
    + intros H. exists [], s. auto.
    + intros (s1 & s2 & -> & (-> & _) & H). exact H.
    + intros H; now contradiction H.
    + intros (s1 & s2 & -> & (-> & Hb) & H). congruence.
  - destruct (at_eol fl s) eqn:Eb; split.
    + intros H. exists [], s. auto.
    + intros (s1 & s2 & -> & (-> & _) & H). exact H.
    + intros H; now contradiction H.
    + intros (s1 & s2 & -> & (-> & Hb) & H). simpl in Eb. congruence.
Qed.

Lemma match_at_denote (r : regex) (prev : option ascii) (s : text) :
  match_at fl r prev s <> None
  <-> exists s1 s2, s = s1 ++ s2 /\ denote fl r prev s1 s2.
Proof.
  unfold match_at. rewrite m_reaches. unfold reaches, accept.
  split.
  - intros (s1 & s2 & E & H & _). eauto.
  - intros (s1 & s2 & E & H). exists s1, s2. repeat split; auto. discriminate.
Qed.

(** [search] finds a match exactly when the pattern matches somewhere. *)
Lemma search_from_denote (r : regex) (s : text) :
  forall prev,
    search_from fl r prev s <> None
    <-> exists before s1 s2,
          s = before ++ s1 ++ s2 /\ denote fl r (last_char prev before) s1 s2.
Proof.
  induction s as [|a s IH]; intros prev.
  - cbn [search_from].
    destruct (match_at fl r prev []) eqn:E; split.
    + intros _.
      assert (H : match_at fl r prev [] <> None) by (rewrite E; discriminate).
      apply match_at_denote in H. destruct H as (s1 & s2 & Es & H).
      exists [], s1, s2. auto.
    + discriminate.
    + intros H; now contradiction H.
    + intros (before & s1 & s2 & Es & H).
      symmetry in Es. apply app_eq_nil in Es. destruct Es as [-> Es].
      assert (H' : match_at fl r prev [] <> None)
        by (apply match_at_denote; exists s1, s2; auto).
      congruence.
  - cbn [search_from].
    destruct (match_at fl r prev (a :: s)) eqn:E; split.
    + intros _.
      assert (H : match_at fl r prev (a :: s) <> None)
        by (rewrite E; discriminate).
      apply match_at_denote in H. destruct H as (s1 & s2 & Es & H).
      exists [], s1, s2. auto.
    + discriminate.
    + intros H. apply IH in H. destruct H as (before & s1 & s2 & -> & H).
      exists (a :: before), s1, s2. auto.
    + intros (before & s1 & s2 & Es & H).
      destruct before as [|b before]; simpl in *.
      * assert (H' : match_at fl r prev (a :: s) <> None)
          by (apply match_at_denote; exists s1, s2; auto).
        congruence.
      * injection Es as <- ->. apply IH. exists before, s1, s2. auto.
Qed.

Lemma search_denote (r : regex) (content : text) :
  search fl r content <> None
  <-> exists before s1 s2,
        content = before ++ s1 ++ s2
        /\ denote fl r (last_char None before) s1 s2.
Proof. apply search_from_denote. Qed.

(** [findall] returns a match exactly when [search] finds one. *)
Lemma findall_from_search (r : regex) (s : text) :
  forall prev,
    findall_from fl r 0 prev s <> [] <-> search_from fl r prev s <> None.
Proof.
  induction s as [|a s IH]; intros prev; cbn [findall_from search_from];
    destruct (match_at fl r prev _); try (split; discriminate).
  - split; intros H; now contradiction H.
  - apply IH.
Qed.

Lemma findall_denote (r : regex) (content : text) :
  1 <= List.length (findall fl r content)
  <-> exists before s1 s2,
        content = before ++ s1 ++ s2
        /\ denote fl r (last_char None before) s1 s2.
Proof.
  rewrite <- search_denote. unfold findall, search.
  rewrite <- findall_from_search.
  destruct (findall_from fl r 0 None content); simpl; split;
    try discriminate; try lia.
  intros H; now contradiction H.
Qed.

(** A run of literals matches a text of the same characters. *)
Lemma denote_lits (t : text) :
  forall prev s1 s2,
    denote fl (lits t) prev s1 s2
    <-> Forall2 (fun c a => same_char fl c a = true) t s1.
Proof.
  induction t as [|c t IH]; intros prev s1 s2; simpl.
  - split; [intros ->; constructor|intros H; now inversion H].
  - split.
    + intros (u & v & -> & (a & -> & Ha) & Hv).
      constructor; [exact Ha|]. eapply IH; eauto.
    + intros H. inversion H as [|c' a t' s' Ha Ht]; subst.
      exists [a], s'. repeat split; eauto. apply IH. exact Ht.
Qed.
End Denotation.

(** ** Section checker: the heading shape *)

Lemma same_char_hash (a : ascii) :
  same_char ignorecase "#" a = true -> a = "#"%char.
Proof.
  each_ascii a; intros H; vm_compute in H;
    first [discriminate H | reflexivity].
Qed.

Lemma same_char_dot (a : ascii) :
  same_char ignorecase "." a = true -> a = "."%char.
Proof.
  each_ascii a; intros H; vm_compute in H;
    first [discriminate H | reflexivity].
Qed.

Lemma same_char_pipe (a : ascii) :
  same_char ignorecase "|" a = true -> a = "|"%char.
Proof.
  each_ascii a; intros H; vm_compute in H;
    first [discriminate H | reflexivity].
Qed.

Lemma same_text_lower (t s : text) :
  Forall2 (fun c a => same_char ignorecase c a = true) t s
  <-> map lower s = map lower t.
Proof.
  revert s. induction t as [|c t IH]; intros s; split.
  - intros H; now inversion H.
  - destruct s; [constructor|discriminate].
  - intros H. inversion H as [|c' a t' s' Ha Ht]; subst. simpl.
    unfold same_char in Ha. simpl in Ha. apply Ascii.eqb_eq in Ha.
    f_equal; [now symmetry|now apply IH].
  - destruct s as [|a s]; [discriminate|]. simpl. intros [= Ha Hs].
    constructor.
    + unfold same_char. simpl. apply Ascii.eqb_eq. now symmetry.
    + now apply IH.
Qed.

Lemma denote_section (section : string) (prev : option ascii) (s1 s2 : text) :
  denote ignorecase (section_pattern section) prev s1 s2
  <-> heading_match section s1.
Proof.
  unfold section_pattern, Plus, Opt, heading_match. cbn [denote]. split.
  - intros (u0 & v0 & -> & Hh & u1 & v1 & -> & (x & y & -> & (a & -> & Ha) & Hy)
            & u2 & v2 & -> & Hd & u3 & v3 & -> & Ho & u4 & v4 & -> & Hs & Hn).
    apply denote_lits in Hh. apply denote_lits in Hn.
    apply same_text_lower in Hn.
    inversion Hh as [|c1 a1 t1 r1 Ha1 Hr1]; subst.
    inversion Hr1 as [|c2 a2 t2 r2 Ha2 Hr2]; subst.
    inversion Hr2; subst.
    apply same_char_hash in Ha1, Ha2. subst a1 a2.
    cbn [cls_match] in *.
    exists ([a] ++ y), u2, u3, u4, v4.
    split; [reflexivity|]. split; [discriminate|].
    split; [simpl; now rewrite Ha|].
    split; [assumption|]. split; [|split; assumption].
    destruct Ho as [(b & -> & Hb) | ->]; [right|now left].
    apply same_char_dot in Hb. now subst b.
  - intros (ws & label & dot & ws' & name & -> & Hne & Hws & Hl & Hdot & Hws'
            & Hn).
    destruct ws as [|a ws]; [now contradiction Hne|].
    simpl in Hws. apply andb_true_iff in Hws. destruct Hws as [Ha Hws].
    exists (T "##"), ((a :: ws) ++ label ++ dot ++ ws' ++ name).
    split; [reflexivity|].
    split; [apply denote_lits; repeat constructor|].
    exists (a :: ws), (label ++ dot ++ ws' ++ name).
    split; [reflexivity|]. split.
    { exists [a], ws. split; [reflexivity|]. split; [|exact Hws].
      exists a. auto. }
    exists label, (dot ++ ws' ++ name). split; [reflexivity|].
    split; [exact Hl|].
    exists dot, (ws' ++ name). split; [reflexivity|]. split.
    { destruct Hdot as [-> | ->]; [now right|left].
      exists "."%char. split; reflexivity. }
    exists ws', name. split; [reflexivity|]. split; [exact Hws'|].
    apply denote_lits. now apply same_text_lower.
Qed.

(** A section is present exactly when a text of the heading shape
    occurs somewhere in the document. *)
Lemma section_present_shape (content : text) (section : string) :
  section_present content section = true
  <-> exists before s after,
        content = before ++ s ++ after /\ heading_match section s.
Proof.
  unfold section_present.
  pose proof (search_denote ignorecase (section_pattern section) content) as H.
  destruct (search ignorecase (section_pattern section) content) as [x|].
  - split; [intros _|reflexivity].
    destruct H as [H _].
    destruct (H ltac:(discriminate)) as (b & s1 & s2 & E & Hd).
    exists b, s1, s2. split; [exact E|]. eapply denote_section; eauto.
  - split; [discriminate|].
    intros (b & s & a & E & Hm). exfalso.
    destruct H as [_ H]. apply H; [|reflexivity].
    exists b, s, a. split; [exact E|]. apply denote_section. exact Hm.
Qed.

Lemma has_heading_present (content : text) (level : nat) (section : string) :
  2 <= level -> has_heading content level section ->
  section_present content section = true.
Proof.
  intros Hl (before & label & name & after & -> & (digits & dot & ws & -> & Hd
                                                   & Hdot & Hws) & Hn).
  apply section_present_shape.
  replace level with ((level - 2) + 2) by lia. rewrite repeat_app.
  exists (before ++ repeat "#"%char (level - 2)),
    (T "##" ++ T " " ++ digits ++ dot ++ ws ++ name), after.
  split.
  - cbn [repeat]. rewrite <- !app_assoc. reflexivity.
  - exists (T " "), digits, dot, ws, name.
    repeat split; auto. discriminate.
Qed.

Lemma filter_all {A : Type} (p : A -> bool) (l : list A) :
  (forall x, In x l -> p x = true) ->
  filter p l = l /\ filter (fun x => negb (p x)) l = [].
Proof.
  induction l as [|x l IH]; intros H; simpl; [auto|].
  rewrite (H x) by now left. simpl.
  destruct IH as [IH1 IH2]; [intros y Hy; apply H; now right|].
  now rewrite IH1, IH2.
Qed.

(** C1, as the code has it: on names that stand for themselves in a
    pattern, a name is present exactly when the document contains two
    [#] characters followed by one or more whitespace characters, then
    digits, an optional dot and whitespace (each possibly absent), and
    then the name in any letter case; so a document that has, for every
    required name, a heading of level two or deeper with a space after
    the marker, with or without such a label, has no missing section. *)
Theorem section_present_heading (content : text) (required : list string)
  (Hplain : forallb plain_name required = true) :
  (forall section, In section required ->
     (section_present content section = true
      <-> exists before s after,
            content = before ++ s ++ after /\ heading_match section s))
  /\ ((forall section, In section required ->
         exists level, 2 <= level /\ has_heading content level section) ->
      validate_sections content required = (required, [])).
Proof.
  split.
  - intros section _. apply section_present_shape.
  - intros H. rewrite validate_sections_filter.
    destruct (filter_all (section_present content) required) as [E1 E2].
    + intros s Hs. destruct (H s Hs) as (level & Hl & Hh).
      eapply has_heading_present; eauto.
    + now rewrite E1, E2.
Qed.

Lemma section_present_heading_witness :
  (forall section, In section QUICK_SPEC_SECTIONS ->
     (section_present scenario_a section = true
      <-> exists before s after,
            scenario_a = before ++ s ++ after /\ heading_match section s))
  /\ ((forall section, In section QUICK_SPEC_SECTIONS ->
         exists level, 2 <= level /\ has_heading scenario_a level section) ->
      validate_sections scenario_a QUICK_SPEC_SECTIONS
      = (QUICK_SPEC_SECTIONS, [])).
Proof.
  apply (section_present_heading scenario_a QUICK_SPEC_SECTIONS).
  vm_compute. reflexivity.
Defined.

(** C1 as stated fails: a heading of level one, and a heading with the
    label "2.1", are headings in the specification's reading and are not
    found by the code. *)
Lemma level_one_heading_missing :
  ~ (forall content section,
       plain_name section = true ->
       (section_present content section = true
        <-> spec_present content section))
  /\ validate_sections level_one_doc QUICK_SPEC_SECTIONS
     = ([], QUICK_SPEC_SECTIONS)
  /\ spec_present (T "## 2.1 Overview") "Overview"
  /\ section_present (T "## 2.1 Overview") "Overview" = false.
Proof.
  split; [|split; [vm_compute; reflexivity|split; [|vm_compute; reflexivity]]].
  - intros H.
    destruct (H (T "# Overview") "Overview" eq_refl) as [_ Hp].
    assert (Hs : spec_present (T "# Overview") "Overview").
    { exists (T "# Overview"). split; [now left|].
      exists 0, [], (T "Overview"), []. repeat split. now left. }
    apply Hp in Hs. vm_compute in Hs. discriminate Hs.
  - exists (T "## 2.1 Overview"). split; [now left|].
    exists 1, (T "2.1 "), (T "Overview"), []. repeat split.
    right. exists (T "2.1"). repeat split. discriminate.
Qed.

Example mixed_headings_found :
  (forall section, In section QUICK_SPEC_SECTIONS ->
     exists level, 2 <= level /\ has_heading mixed_headings level section)
  /\ validate_sections mixed_headings QUICK_SPEC_SECTIONS
     = (QUICK_SPEC_SECTIONS, []).
Proof.
  split; [|vm_compute; reflexivity].
  intros section [<-|[<-|[<-|[<-|[]]]]].
  - exists 2. split; [lia|].
    exists [], [], (T "What"), (skipn 7 mixed_headings).
    repeat split. exists [], [], []. repeat split. now left.
  - exists 3. split; [lia|].
    exists (firstn 8 mixed_headings), (T "2. "), (T "why"),
      (skipn 18 mixed_headings).
    repeat split. exists (T "2"), (T "."), (T " "). repeat split. now right.
  - exists 4. split; [lia|].
    exists (firstn 19 mixed_headings), (T "3 "), (T "HOW"),
      (skipn 29 mixed_headings).
    repeat split. exists (T "3"), [], (T " "). repeat split. now left.
  - exists 2. split; [lia|].
    exists (firstn 30 mixed_headings), (T "4.  "), (T "Acceptance criteria"),
      (skipn 56 mixed_headings).
    repeat split. exists (T "4"), (T "."), (T "  "). repeat split. now right.
Qed.

(** ** Section checker: whitespace after the marker *)

Lemma heading_match_length (section : string) (s : text) :
  heading_match section s -> 3 + List.length (T section) <= List.length s.
Proof.
  intros (ws & label & dot & ws' & name & -> & Hne & _ & _ & _ & _ & Hn).
  apply (f_equal (@List.length ascii)) in Hn. rewrite !length_map in Hn.
  rewrite !length_app. destruct ws; [now contradiction Hne|]. simpl. lia.
Qed.

(** C10: on names that stand for themselves in a pattern, a present
    section has somewhere in the document two [#] directly followed by a
    whitespace character; the heading made of [##] and the name with
    nothing between them is not found, nor is one with a label directly
    after [##]; three or more [#], a space and the name are found. *)
Theorem marker_needs_whitespace (content : text) (section : string)
  (Hplain : plain_name section = true) :
  (section_present content section = true ->
   exists before a after,
     content = before ++ T "##" ++ a :: after /\ is_space a = true)
  /\ section_present (T "##" ++ T section) section = false
  /\ (forall n before after,
        section_present
          (before ++ repeat "#"%char (3 + n) ++ T " " ++ T section ++ after)
          section = true)
  /\ section_present (T "##Overview") "Overview" = false
  /\ section_present (T "##1. Overview") "Overview" = false
  /\ section_present (T "### Overview") "Overview" = true.
Proof.
  split; [|split; [|split; [|repeat split; vm_compute; reflexivity]]].
  - intros H. apply section_present_shape in H.
    destruct H as (before & s & after
                   & -> & ws & label & dot & ws' & name & -> & Hne & Hws & _).
    destruct ws as [|a ws]; [now contradiction Hne|].
    simpl in Hws. apply andb_true_iff in Hws. destruct Hws as [Ha _].
    exists before, a, (ws ++ label ++ dot ++ ws' ++ name ++ after).
    split; [|exact Ha].
    rewrite <- !app_assoc. reflexivity.
  - destruct (section_present (T "##" ++ T section) section) eqn:E;
      [|reflexivity].
    apply section_present_shape in E.
    destruct E as (before & s & after & E & Hm).
    apply heading_match_length in Hm.
    apply (f_equal (@List.length ascii)) in E.
    rewrite !length_app in E. simpl in E. lia.
  - intros n before after.
    apply (has_heading_present _ (3 + n)); [lia|].
    exists before, [], (T section), after.
    repeat split. exists [], [], []. repeat split. now left.
Qed.

Lemma marker_needs_whitespace_witness :
  (section_present (T "## Overview") "Overview" = true ->
   exists before a after,
     T "## Overview" = before ++ T "##" ++ a :: after
     /\ is_space a = true)
  /\ section_present (T "##" ++ T "Overview") "Overview" = false.
Proof.
  pose proof (marker_needs_whitespace (T "## Overview") "Overview" eq_refl)
    as (H1 & H2 & _).
  exact (conj H1 H2).
Defined.

(** ** Empty table cells *)

Lemma denote_empty_tables (prev : option ascii) (s1 s2 : text) :
  denote ignorecase empty_tables_re prev s1 s2 <-> empty_cells s1.
Proof.
  unfold empty_tables_re, empty_cells. cbn [denote cls_match]. split.
  - intros (u0 & v0 & -> & (a & -> & Ha) & u1 & v1 & -> & H1
            & u2 & v2 & -> & (b & -> & Hb) & u3 & v3 & -> & H3
            & (c & -> & Hc)).
    apply same_char_pipe in Ha, Hb, Hc. subst a b c.
    exists u1, u3. auto.
  - intros (ws1 & ws2 & -> & H1 & H2).
    exists (T "|"), (ws1 ++ T "|" ++ ws2 ++ T "|").
    split; [reflexivity|]. split; [exists "|"%char; auto|].
    exists ws1, (T "|" ++ ws2 ++ T "|").
    split; [reflexivity|]. split; [exact H1|].
    exists (T "|"), (ws2 ++ T "|").
    split; [reflexivity|]. split; [exists "|"%char; auto|].
    exists ws2, (T "|"). split; [reflexivity|]. split; [exact H2|].
    exists "|"%char; auto.
Qed.

(** C5, as the code has it: the empty-table check has an entry exactly
    when the document contains three pipe characters with nothing but
    whitespace (line breaks included) between one and the next. *)
Theorem empty_tables_three_pipes (content : text) :
  dict_mem (check_quality content) "empty_tables" = true
  <-> exists before s after,
        content = before ++ s ++ after /\ empty_cells s.
Proof.
  destruct (check_quality_entries content) as (_ & E & _).
  unfold dict_mem. rewrite E. unfold entry_of.
  pose proof (findall_denote ignorecase empty_tables_re content) as H.
  fold (count_of empty_tables_re content) in H.
  destruct (count_of empty_tables_re content) as [|n].
  - split; [discriminate|].
    intros (b & s & a & Ec & Hs). exfalso.
    assert (1 <= 0); [|lia].
    apply H. exists b, s, a. split; [exact Ec|].
    apply denote_empty_tables. exact Hs.
  - split; [intros _|reflexivity].
    destruct H as [H _].
    destruct (H ltac:(lia)) as (b & s1 & s2 & Ec & Hd).
    exists b, s1, s2. split; [exact Ec|].
    eapply denote_empty_tables; eauto.
Qed.

(** C5 as stated fails: a row of two pipes around a blank is an empty
    row in the specification's reading and is not flagged. *)
Lemma two_pipes_not_flagged :
  ~ (forall content,
       dict_mem (check_quality content) "empty_tables" = true
       <-> spec_empty_row content)
  /\ spec_empty_row (T "| |")
  /\ check_quality (T "| |") = []
  /\ check_quality (T "| | |") = [("empty_tables", 1)].
Proof.
  assert (Hs : spec_empty_row (T "| |")).
  { exists [], (T " "), []. split; reflexivity. }
  split; [|split; [exact Hs|split; vm_compute; reflexivity]].
  intros H. apply H in Hs. vm_compute in Hs. discriminate Hs.
Qed.

(** ** Code blocks *)

Lemma fence_match (prev : option ascii) (s : text) :
  match_at no_flags (lits fence) prev s
  = match s with
    | a :: b :: c :: rest =>
        if is_tick a && is_tick b && is_tick c then Some rest else None
    | _ => None
    end.
Proof.
  unfold is_tick.
  destruct s as [|a [|b [|c rest]]]; cbn -[Ascii.eqb];
    repeat match goal with
      | |- context [Ascii.eqb ?x ?y] => destruct (Ascii.eqb x y); cbn -[Ascii.eqb]
      end; reflexivity.
Qed.

Lemma findall_fences (n : nat) :
  forall s prev,
    List.length s <= n ->
    List.length (findall_from no_flags (lits fence) 0 prev s) = fence_count s.
Proof.
  induction n as [|n IH]; intros s prev Hn.
  - destruct s; [|simpl in Hn; lia]. cbn [findall_from].
    rewrite fence_match. reflexivity.
  - destruct s as [|a s1]; [cbn [findall_from]; now rewrite fence_match|].
    simpl in Hn.
    assert (Hrec : List.length (findall_from no_flags (lits fence) 0 (Some a) s1)
                   = fence_count s1) by (apply IH; lia).
    cbn [findall_from]. rewrite fence_match.
    destruct s1 as [|b [|c rest]]; try exact Hrec.
    cbn [fence_count].
    destruct (is_tick a && is_tick b && is_tick c); [|exact Hrec].
    cbv zeta.
    replace (List.length (a :: b :: c :: rest) - List.length rest) with 3
      by (cbn [List.length]; lia).
    cbn [Nat.sub findall_from List.length]. f_equal.
    apply IH. simpl in Hn. lia.
Qed.

(** C6: the number of code blocks is the number of fence delimiters
    halved, rounding down; four delimiters give 2 and three give 1. *)
Theorem code_blocks_half_fences (content : text) :
  check_code_blocks content = fence_count content / 2
  /\ (fence_count content = 4 -> check_code_blocks content = 2)
  /\ (fence_count content = 3 -> check_code_blocks content = 1)
  /\ fence_count (T "```a```b```c```") = 4
  /\ check_code_blocks (T "```a```b```c```") = 2
  /\ fence_count (T "```a```b```") = 3
  /\ check_code_blocks (T "```a```b```") = 1.
Proof.
  assert (E : check_code_blocks content = fence_count content / 2).
  { unfold check_code_blocks, findall.
    now rewrite (findall_fences (List.length content)). }
  split; [exact E|].
  split; [intros H; rewrite E, H; reflexivity|].
  split; [intros H; rewrite E, H; reflexivity|].
  repeat split; vm_compute; reflexivity.
Qed.

(** ** Vague language *)

(** C4 at the failing input: "etc." in a sentence is not counted.  The
    pattern asks for a word boundary after the dot, which holds only
    when a letter, digit or underscore follows it: at "etc." followed by
    anything else, or by the end of the text, the match fails, while
    "etc.x" is counted. *)
Theorem etc_in_prose_not_counted :
  count_of vague_language_re etc_in_prose = 0
  /\ dict_get (check_quality etc_in_prose) "vague_language" = None
  /\ count_of vague_language_re (T "etc.") = 0
  /\ count_of vague_language_re (T "maybe CSV, etc.") = 1
  /\ count_of vague_language_re (T "etc.x") = 1
  /\ (forall prev rest,
        word_after rest = false ->
        match_at ignorecase vague_language_re prev (T "etc." ++ rest) = None).
Proof.
  repeat split; try (vm_compute; reflexivity).
  intros prev rest H.
  unfold match_at, vague_language_re. cbn [m].
  unfold at_boundary at 1. cbn [word_after T list_ascii_of_string app].
  destruct (word_before prev); [reflexivity|].
  cbn -[at_boundary]. unfold at_boundary. rewrite H. reflexivity.
Qed.

(** ** Unresolved placeholders *)

Lemma same_char_lbracket (a : ascii) :
  same_char ignorecase "[" a = true -> a = "["%char.
Proof.
  each_ascii a; intros H; vm_compute in H;
    first [discriminate H | reflexivity].
Qed.

Lemma same_char_rbracket (a : ascii) :
  same_char ignorecase "]" a = true -> a = "]"%char.
Proof.
  each_ascii a; intros H; vm_compute in H;
    first [discriminate H | reflexivity].
Qed.

Lemma denote_placeholder (prev : option ascii) (s1 s2 : text) :
  denote ignorecase unresolved_placeholders_re prev s1 s2
  <-> bracketed_token s1.
Proof.
  unfold unresolved_placeholders_re, bracketed_token, placeholder_tokens.
  cbn [denote alt_of cls_match map]. split.
  - intros (u0 & v0 & -> & (a & -> & Ha) & u1 & v1 & -> & Halt
            & (c & -> & Hc)).
    apply same_char_lbracket in Ha. apply same_char_rbracket in Hc.
    subst a c.
    rewrite !denote_lits, !same_text_lower in Halt.
    destruct Halt as [H|[H|[H|[H|H]]]];
      eexists u1, _; (split; [reflexivity|]); (split; [|exact H]);
      simpl; tauto.
  - intros (tok & word & -> & Hin & Hl).
    exists (T "["), (tok ++ T "]"). split; [reflexivity|].
    split; [exists "["%char; auto|].
    exists tok, (T "]"). split; [reflexivity|].
    split; [|exists "]"%char; auto].
    rewrite !denote_lits, !same_text_lower.
    simpl in Hin.
    destruct Hin as [<-|[<-|[<-|[<-|[<-|[]]]]]]; tauto.
Qed.

(** A document with a bracketed placeholder token anywhere fails,
    whatever its sections. *)
Lemma bracketed_placeholder_fails (fs : files) (filepath : string)
  (quick : bool) (before s after : text) :
  bracketed_token s ->
  fs filepath = Some (before ++ s ++ after) ->
  snd (validate_spec fs filepath quick) = false.
Proof.
  intros Hs Hfile.
  destruct (validate_spec_verdict fs filepath quick _ Hfile) as [_ E].
  rewrite E.
  assert (Hf : decide_verdict
                 (snd (validate_sections (before ++ s ++ after)
                         (required_for quick)))
                 (check_quality (before ++ s ++ after)) = FAILED).
  { apply decide_verdict_failed. right. unfold count_of.
    apply findall_denote. exists before, s, after.
    split; [reflexivity|]. apply denote_placeholder. exact Hs. }
  now rewrite Hf.
Qed.

(** * Further properties *)

(** ** Quality scanner: what each check finds *)

Lemma quality_entry_denote (content : text) (name : string) (pattern : regex) :
  In (name, pattern) QUALITY_PATTERNS ->
  (dict_mem (check_quality content) name = true
   <-> exists before s1 s2,
         content = before ++ s1 ++ s2
         /\ denote ignorecase pattern (last_char None before) s1 s2).
Proof.
  intros Hin.
  rewrite <- findall_denote.
  assert (E : dict_get (check_quality content) name = entry_of pattern content).
  { destruct (check_quality_entries content) as (E1 & E2 & E3 & E4).
    simpl in Hin.
    destruct Hin as [Hin|[Hin|[Hin|[Hin|[]]]]]; inversion Hin; subst;
      assumption. }
  unfold dict_mem. rewrite E. unfold entry_of, count_of.
  destruct (List.length (findall ignorecase pattern content)); split;
    try discriminate; try lia; reflexivity.
Qed.

(** X1: the unresolved-placeholder check has an entry exactly when the
    document contains one of TODO, TBD, PLACEHOLDER, XXX, FIXME in any
    letter case between square brackets; and then the validation of the
    file returns false in either mode. *)
Theorem placeholder_entry_iff (fs : files) (filepath : string) (quick : bool)
  (content : text) :
  (dict_mem (check_quality content) "unresolved_placeholders" = true
   <-> exists before s after,
         content = before ++ s ++ after /\ bracketed_token s)
  /\ (fs filepath = Some content ->
      (exists before s after,
         content = before ++ s ++ after /\ bracketed_token s) ->
      snd (validate_spec fs filepath quick) = false).
Proof.
  assert (H : dict_mem (check_quality content) "unresolved_placeholders" = true
              <-> exists before s after,
                    content = before ++ s ++ after /\ bracketed_token s).
  { rewrite (quality_entry_denote content _ unresolved_placeholders_re)
      by (simpl; tauto).
    split; intros (b & s1 & s2 & E & Hd); exists b, s1, s2; (split; [exact E|]);
      eapply denote_placeholder; eauto. }
  split; [exact H|].
  intros Hfile (b & s & a & -> & Hs).
  eapply bracketed_placeholder_fails; eauto.
Qed.

Lemma same_char_dash (a : ascii) :
  same_char ignorecase "-" a = true -> a = "-"%char.
Proof.
  each_ascii a; intros H; vm_compute in H;
    first [discriminate H | reflexivity].
Qed.

Lemma same_char_blank (a : ascii) :
  same_char ignorecase " " a = true -> a = " "%char.
Proof.
  each_ascii a; intros H; vm_compute in H;
    first [discriminate H | reflexivity].
Qed.

Lemma denote_unchecked_bracket (prev : option ascii) (s1 s2 : text) :
  denote ignorecase missing_acceptance_criteria_re prev s1 s2
  <-> s1 = unchecked_bracket.
Proof.
  unfold missing_acceptance_criteria_re. rewrite denote_lits. split.
  - intros H.
    repeat match goal with
      | H : Forall2 _ _ _ |- _ => inversion H; clear H; subst
      end.
    repeat match goal with
      | H : same_char ignorecase "-" _ = true |- _ =>
          apply same_char_dash in H; subst
      | H : same_char ignorecase " " _ = true |- _ =>
          apply same_char_blank in H; subst
      | H : same_char ignorecase "[" _ = true |- _ =>
          apply same_char_lbracket in H; subst
      | H : same_char ignorecase "]" _ = true |- _ =>
          apply same_char_rbracket in H; subst
      end.
    reflexivity.
  - intros ->. repeat constructor.
Qed.

Lemma unchecked_bracket_found (content : text) :
  dict_mem (check_quality content) "missing_acceptance_criteria" = true
  <-> exists before after, content = before ++ unchecked_bracket ++ after.
Proof.
  rewrite (quality_entry_denote content _ missing_acceptance_criteria_re)
    by (simpl; tauto).
  split.
  - intros (b & s1 & s2 & E & Hd). apply denote_unchecked_bracket in Hd.
    subst s1. eauto.
  - intros (b & a & E). exists b, unchecked_bracket, a.
    split; [exact E|]. now apply denote_unchecked_bracket.
Qed.

(** X2: the missing-acceptance-criteria check has an entry exactly when
    the document contains the text of an unchecked box directly followed
    by an opening bracket. *)
Theorem unchecked_bracket_entry_iff (content : text) :
  dict_mem (check_quality content) "missing_acceptance_criteria" = true
  <-> exists before after, content = before ++ unchecked_bracket ++ after.
Proof. apply unchecked_bracket_found. Qed.

Lemma denote_vague (prev : option ascii) (s1 s2 : text) :
  denote ignorecase vague_language_re prev s1 s2
  <-> hedging_word s1
      /\ at_boundary prev (s1 ++ s2) = true
      /\ at_boundary (last_char prev s1) s2 = true.
Proof.
  unfold vague_language_re, hedging_word, vague_words.
  cbn [denote alt_of map]. split.
  - intros (u & v & -> & (-> & Hb) & w & z & -> & Halt & (-> & He)).
    cbn [last_char app] in *. rewrite app_nil_r in *.
    split; [|split; assumption].
    rewrite !denote_lits, !same_text_lower in Halt.
    destruct Halt as [H|[H|[H|[H|[H|H]]]]];
      eexists; (split; [|exact H]); simpl; tauto.
  - intros ((word & Hin & Hl) & Hb & He).
    exists [], s1. split; [reflexivity|]. split; [split; [reflexivity|exact Hb]|].
    exists s1, []. split; [now rewrite app_nil_r|].
    split; [|split; [reflexivity|exact He]].
    rewrite !denote_lits, !same_text_lower.
    simpl in Hin.
    destruct Hin as [<-|[<-|[<-|[<-|[<-|[<-|[]]]]]]]; tauto.
Qed.

(** X3: the vague-language check has an entry exactly when the document
    contains one of the pattern's words, in any letter case, at a place
    where exactly one of the characters around its first position is a
    word character, and likewise around the position after its end. *)
Theorem vague_entry_iff (content : text) :
  dict_mem (check_quality content) "vague_language" = true
  <-> exists before w after,
        content = before ++ w ++ after
        /\ hedging_word w
        /\ at_boundary (last_char None before) (w ++ after) = true
        /\ at_boundary (last_char None (before ++ w)) after = true.
Proof.
  rewrite (quality_entry_denote content _ vague_language_re)
    by (simpl; tauto).
  split; intros (b & w & a & E & H); exists b, w, a; (split; [exact E|]).
  - apply denote_vague in H. now rewrite last_char_app.
  - apply denote_vague. now rewrite <- last_char_app.
Qed.

(** ** The matcher's result *)

Section Results.
Variable fl : flags.

Lemma star_loop_result (c : cls) (k : cont) (s : text) :
  forall prev x,
    star_loop fl c k prev s = Some x ->
    exists s1 s2, s = s1 ++ s2
                  /\ forallb (cls_match fl c) s1 = true
                  /\ k (last_char prev s1) s2 = Some x.
Proof.
  induction s as [|a s IH]; intros prev x; simpl.
  - intros H. exists [], []. auto.
  - destruct (cls_match fl c a) eqn:Ea.
    + destruct (star_loop fl c k (Some a) s) as [y|] eqn:El.
      * intros [= <-]. destruct (IH _ _ El) as (s1 & s2 & -> & Hs & Hk).
        exists (a :: s1), s2. simpl. rewrite Ea. auto.
      * intros H. exists [], (a :: s). auto.
    + intros H. exists [], (a :: s). auto.
Qed.

(** What the matcher returns comes from a split of the text that the
    pattern matches and the continuation accepts with that result. *)
Lemma m_result (r : regex) :
  forall k prev s x,
    m fl r k prev s = Some x ->
    exists s1 s2, s = s1 ++ s2
                  /\ denote fl r prev s1 s2
                  /\ k (last_char prev s1) s2 = Some x.
Proof.
  induction r as [|c|c|r1 IH1 r2 IH2|r1 IH1 r2 IH2| | |]; intros k prev s x;
    simpl.
  - intros H. exists [], s. auto.
  - destruct s as [|a s]; [discriminate|].
    destruct (cls_match fl c a) eqn:Ea; [|discriminate].
    intros H. exists [a], s. repeat split; eauto.
  - apply star_loop_result.
  - intros H. apply IH1 in H. destruct H as (u & s' & -> & H1 & H2).
    apply IH2 in H2. destruct H2 as (v & s2 & -> & H2 & Hk).
    exists (u ++ v), s2. rewrite <- app_assoc, last_char_app.
    repeat split; auto. exists u, v. auto.
  - destruct (m fl r1 k prev s) as [y|] eqn:E1.
    + intros [= <-]. apply IH1 in E1. destruct E1 as (s1 & s2 & E & Hd & Hk).
      exists s1, s2. auto.
    + intros H. apply IH2 in H. destruct H as (s1 & s2 & E & Hd & Hk).
      exists s1, s2. auto.
  - destruct (at_boundary prev s) eqn:Eb; [|discriminate].
    intros H. exists [], s. auto.
  - destruct (at_bol fl prev) eqn:Eb; [|discriminate].
    intros H. exists [], s. auto.
  - destruct (at_eol fl s) eqn:Eb; [|discriminate].
    intros H. exists [], s. auto.
Qed.

Lemma match_at_result (r : regex) (prev : option ascii) (s rest : text) :
  match_at fl r prev s = Some rest ->
  exists s1, s = s1 ++ rest /\ denote fl r prev s1 rest.
Proof.
  intros H. apply m_result in H. destruct H as (s1 & s2 & E & Hd & Hk).
  unfold accept in Hk. injection Hk as <-. eauto.
Qed.

(** The scan of [findall], step by step. *)
Lemma findall_skip (r : regex) (pre : text) :
  forall prev s,
    findall_from fl r (List.length pre) prev (pre ++ s)
    = findall_from fl r 0 (last_char prev pre) s.
Proof.
  induction pre as [|a pre IH]; intros prev s.
  - destruct s; reflexivity.
  - cbn [List.length app findall_from last_char]. apply IH.
Qed.

Lemma findall_hit (r : regex) (prev : option ascii) (a : ascii)
  (s1 rest : text) :
  match_at fl r prev ((a :: s1) ++ rest) = Some rest ->
  findall_from fl r 0 prev ((a :: s1) ++ rest)
  = (a :: s1) :: findall_from fl r 0 (last_char (Some a) s1) rest.
Proof.
  intros H. cbn [findall_from app]. cbn [app] in H. rewrite H. cbv zeta.
  replace (List.length (a :: s1 ++ rest) - List.length rest)
    with (S (List.length s1))
    by (cbn [List.length]; rewrite length_app; lia).
  cbn [firstn]. rewrite firstn_app, firstn_all, Nat.sub_diag. cbn [firstn].
  rewrite app_nil_r. f_equal.
  replace (S (List.length s1) - 1) with (List.length s1) by lia.
  apply findall_skip.
Qed.

Lemma findall_miss (r : regex) (prev : option ascii) (a : ascii) (s : text) :
  match_at fl r prev (a :: s) = None ->
  findall_from fl r 0 prev (a :: s) = findall_from fl r 0 (Some a) s.
Proof. intros H. cbn [findall_from]. now rewrite H. Qed.

Lemma findall_end (r : regex) (prev : option ascii) :
  match_at fl r prev [] = None -> findall_from fl r 0 prev [] = [].
Proof. intros H. cbn [findall_from]. now rewrite H. Qed.
End Results.

(** ** Lines *)

Lemma line_end_cases (s : text) :
  line_end s = true <-> s = [] \/ exists s', s = newline :: s'.
Proof.
  destruct s as [|a s]; simpl.
  - split; auto.
  - split.
    + intros H. apply Ascii.eqb_eq in H. subst. eauto.
    + intros [H|(s' & H)]; [discriminate|].
      injection H as -> _. apply Ascii.eqb_refl.
Qed.

Lemma one_line_app (u v : text) :
  one_line (u ++ v) = one_line u && one_line v.
Proof. apply forallb_app. Qed.

(** A line and what follows it are determined by the text. *)
Lemma line_split_unique (u : text) :
  forall u' v v',
    u ++ v = u' ++ v' ->
    one_line u = true -> one_line u' = true ->
    line_end v = true -> line_end v' = true ->
    u = u' /\ v = v'.
Proof.
  induction u as [|a u IH]; intros u' v v' E Hu Hu' Hv Hv'.
  - destruct u' as [|b u']; [auto|].
    simpl in *. subst v. simpl in Hv.
    apply andb_true_iff in Hu'. destruct Hu' as [Hb _].
    rewrite Hv in Hb. discriminate.
  - destruct u' as [|b u'].
    + simpl in *. subst v'. simpl in Hv'.
      apply andb_true_iff in Hu. destruct Hu as [Ha _].
      rewrite Hv' in Ha. discriminate.
    + simpl in *. injection E as <- E.
      apply andb_true_iff in Hu, Hu'.
      destruct Hu as [_ Hu]. destruct Hu' as [_ Hu'].
      destruct (IH _ _ _ E Hu Hu' Hv Hv') as [-> ->]. auto.
Qed.

Lemma segments_one_line (s : text) :
  Forall (fun ln => one_line ln = true) (split newline s).
Proof.
  eapply Forall_impl; [|apply split_segments_clean].
  intros ln. unfold count_char, one_line.
  induction ln as [|a ln IH]; simpl; [reflexivity|].
  destruct (Ascii.eqb a newline); simpl; [discriminate|exact IH].
Qed.

Lemma last_char_one_line (a : ascii) (ln : text) :
  one_line (a :: ln) = true ->
  exists c, last_char (Some a) ln = Some c /\ Ascii.eqb c newline = false.
Proof.
  revert a. induction ln as [|b ln IH]; intros a H.
  - exists a. simpl in *. apply andb_true_iff in H. destruct H as [H _].
    apply negb_true_iff in H. auto.
  - simpl in H. apply andb_true_iff in H. destruct H as [_ H].
    cbn [last_char]. apply IH. exact H.
Qed.

(** ** Table rows *)

Lemma eol_multiline (s : text) : at_eol multiline s = line_end s.
Proof.
  destruct s as [|a s]; simpl; [reflexivity|].
  now rewrite andb_true_r.
Qed.

Lemma denote_table_row (prev : option ascii) (s1 s2 : text) :
  denote multiline table_row_re prev s1 s2
  <-> at_bol multiline prev = true
      /\ (exists mid, s1 = T "|" ++ mid ++ T "|"
                      /\ mid <> [] /\ one_line mid = true)
      /\ line_end s2 = true.
Proof.
  unfold table_row_re, Plus. cbn [denote]. rewrite <- eol_multiline. split.
  - intros (u0 & v0 & -> & (-> & Hb) & u1 & v1 & -> & (a & -> & Ha)
            & u2 & v2 & -> & (x & y & -> & (b & -> & Hx) & Hy)
            & u3 & v3 & -> & (c & -> & Hc) & (-> & He)).
    cbn [cls_match same_char IGNORECASE multiline] in *.
    apply Ascii.eqb_eq in Ha, Hc. subst a c.
    split; [exact Hb|]. split; [|exact He].
    exists ([b] ++ y). split; [now rewrite app_nil_r|].
    split; [discriminate|].
    unfold one_line. simpl. now rewrite Hx.
  - intros (Hb & (mid & -> & Hne & Hm) & He).
    destruct mid as [|b y]; [now contradiction Hne|].
    unfold one_line in Hm. simpl in Hm. apply andb_true_iff in Hm.
    destruct Hm as [Hx Hy].
    exists [], (T "|" ++ (b :: y) ++ T "|"). split; [reflexivity|].
    split; [auto|].
    exists (T "|"), ((b :: y) ++ T "|"). split; [reflexivity|].
    split; [exists "|"%char; auto|].
    exists (b :: y), (T "|"). split; [reflexivity|].
    split; [exists [b], y; split; [reflexivity|]; split; [exists b; auto|exact Hy]|].
    exists (T "|"), []. split; [reflexivity|].
    split; [exists "|"%char; auto|]. auto.
Qed.

Lemma table_row_shape (ln : text) :
  one_line ln = true ->
  (table_row ln = true
   <-> exists mid, ln = T "|" ++ mid ++ T "|"
                   /\ mid <> [] /\ one_line mid = true).
Proof.
  intros Hl. unfold table_row. split.
  - intros H. apply andb_true_iff in H. destruct H as [H Hlast].
    apply andb_true_iff in H. destruct H as [Hlen Hhd].
    apply Nat.leb_le in Hlen. apply Ascii.eqb_eq in Hhd, Hlast.
    destruct ln as [|a ln]; [simpl in Hlen; lia|]. simpl in Hhd. subst a.
    destruct (exists_last (l := ln)) as (mid & c & ->).
    { intros ->. simpl in Hlen. lia. }
    change ("|"%char :: mid ++ [c]) with (("|"%char :: mid) ++ [c]) in Hlast.
    rewrite last_last in Hlast. subst c.
    exists mid. split; [reflexivity|]. split.
    + intros ->. simpl in Hlen. lia.
    + change ("|"%char :: mid ++ ["|"%char]) with (T "|" ++ mid ++ T "|") in Hl.
      rewrite !one_line_app in Hl.
      apply andb_true_iff in Hl. destruct Hl as [_ Hl].
      apply andb_true_iff in Hl. now destruct Hl.
  - intros (mid & -> & Hne & _).
    destruct mid as [|b mid]; [now contradiction Hne|].
    change (T "|" ++ (b :: mid) ++ T "|")
      with (("|"%char :: b :: mid) ++ ["|"%char]).
    rewrite last_last. rewrite length_app. cbn [List.length hd].
    rewrite !Ascii.eqb_refl, !andb_true_r. apply Nat.leb_le. lia.
Qed.

(** At the start of a line the pattern matches exactly a table row,
    and it matches the whole line. *)
Lemma table_row_match (prev : option ascii) (ln rest : text) :
  one_line ln = true -> line_end rest = true ->
  at_bol multiline prev = true ->
  match_at multiline table_row_re prev (ln ++ rest)
  = if table_row ln then Some rest else None.
Proof.
  intros Hl Hr Hb.
  destruct (match_at multiline table_row_re prev (ln ++ rest)) as [x|] eqn:E.
  - apply match_at_result in E. destruct E as (s1 & E & Hd).
    apply denote_table_row in Hd. destruct Hd as (_ & Hm & Hx).
    assert (H1 : one_line s1 = true).
    { destruct Hm as (mid & -> & _ & Hmid).
      rewrite !one_line_app, Hmid. reflexivity. }
    destruct (line_split_unique _ _ _ _ E Hl H1 Hr Hx) as [-> ->].
    apply (table_row_shape _ H1) in Hm. now rewrite Hm.
  - destruct (table_row ln) eqn:Et; [|reflexivity].
    exfalso.
    assert (H : match_at multiline table_row_re prev (ln ++ rest) <> None).
    { apply match_at_denote. exists ln, rest. split; [reflexivity|].
      apply denote_table_row. split; [exact Hb|]. split; [|exact Hr].
      now apply table_row_shape. }
    congruence.
Qed.

Lemma table_row_inside (a : ascii) (s : text) :
  Ascii.eqb a newline = false ->
  match_at multiline table_row_re (Some a) s = None.
Proof.
  intros H. unfold match_at, table_row_re. cbn [m at_bol multiline MULTILINE].
  now rewrite H.
Qed.

Lemma tables_scan_inside (ln : text) :
  forall a rest,
    one_line ln = true -> line_end rest = true ->
    Ascii.eqb a newline = false ->
    findall_from multiline table_row_re 0 (Some a) (ln ++ rest)
    = match rest with
      | [] => []
      | b :: rest' => findall_from multiline table_row_re 0 (Some b) rest'
      end.
Proof.
  induction ln as [|b ln IH]; intros a rest Hl Hr Ha; cbn [app].
  - destruct rest as [|c rest].
    + apply findall_end. now apply table_row_inside.
    + apply findall_miss. now apply table_row_inside.
  - rewrite findall_miss by now apply table_row_inside.
    simpl in Hl. apply andb_true_iff in Hl. destruct Hl as [Hb Hl].
    apply IH; auto. now apply negb_true_iff.
Qed.

Lemma tables_scan_line (ln rest : text) (prev : option ascii) :
  one_line ln = true -> line_end rest = true ->
  at_bol multiline prev = true ->
  findall_from multiline table_row_re 0 prev (ln ++ rest)
  = (if table_row ln then [ln] else [])
    ++ match rest with
       | [] => []
       | b :: rest' => findall_from multiline table_row_re 0 (Some b) rest'
       end.
Proof.
  intros Hl Hr Hb.
  pose proof (table_row_match prev ln rest Hl Hr Hb) as Hm.
  destruct (table_row ln) eqn:Et.
  - destruct ln as [|a ln]; [discriminate Et|].
    rewrite (findall_hit multiline _ _ _ _ _ Hm). cbn [app]. f_equal.
    destruct (last_char_one_line a ln Hl) as (c & -> & Hc).
    apply (tables_scan_inside [] c rest); auto.
  - destruct ln as [|a ln]; cbn [app] in *.
    + destruct rest as [|c rest].
      * now apply findall_end.
      * now apply findall_miss.
    + rewrite findall_miss by exact Hm.
      simpl in Hl. apply andb_true_iff in Hl. destruct Hl as [Ha Hl].
      apply tables_scan_inside; auto. now apply negb_true_iff.
Qed.

Lemma tables_scan_lines (lines : list text) :
  lines <> [] ->
  Forall (fun ln => one_line ln = true) lines ->
  forall prev,
    at_bol multiline prev = true ->
    findall_from multiline table_row_re 0 prev (join newline lines)
    = filter table_row lines.
Proof.
  induction lines as [|ln lines IH]; intros Hne Hall prev Hb;
    [now contradiction Hne|].
  inversion Hall as [|? ? Hl Hall']; subst.
  destruct lines as [|l2 lines].
  - cbn [join filter]. rewrite <- (app_nil_r ln) at 1.
    rewrite tables_scan_line by auto. now rewrite app_nil_r.
  - change (join newline (ln :: l2 :: lines))
      with (ln ++ newline :: join newline (l2 :: lines)).
    rewrite tables_scan_line by first [assumption|reflexivity].
    rewrite IH; [|discriminate|assumption|reflexivity].
    cbn [filter]. destruct (table_row ln); reflexivity.
Qed.

(** X4: the matches of the table-row pattern are the lines of the
    document, split at line feeds, that start with a pipe, end with a
    pipe and have at least one character between the two, in order; the
    table-row count is their number and never exceeds the line count. *)
Theorem check_tables_rows (content : text) :
  findall multiline table_row_re content
  = filter table_row (split newline content)
  /\ check_tables content
     = List.length (filter table_row (split newline content))
  /\ check_tables content <= line_count content.
Proof.
  assert (E : findall multiline table_row_re content
              = filter table_row (split newline content)).
  { unfold findall. rewrite <- (join_split newline content) at 1.
    apply tables_scan_lines;
      [apply split_not_nil|apply segments_one_line|reflexivity]. }
  unfold check_tables, line_count. rewrite E.
  repeat split. apply filter_length_le.
Qed.

(** ** Acceptance criteria *)

Lemma cls_lit_dash (a : ascii) :
  cls_match ignorecase (Lit "-") a = is_char "-" a.
Proof. each_ascii a; vm_compute; reflexivity. Qed.

Lemma cls_lit_blank (a : ascii) :
  cls_match ignorecase (Lit " ") a = is_char " " a.
Proof. each_ascii a; vm_compute; reflexivity. Qed.

Lemma cls_lit_lbracket (a : ascii) :
  cls_match ignorecase (Lit "[") a = is_char "[" a.
Proof. each_ascii a; vm_compute; reflexivity. Qed.

Lemma cls_lit_rbracket (a : ascii) :
  cls_match ignorecase (Lit "]") a = is_char "]" a.
Proof. each_ascii a; vm_compute; reflexivity. Qed.

Lemma cls_box_mark (a : ascii) :
  cls_match ignorecase (OneOf (T "x ")) a = box_mark a.
Proof. each_ascii a; vm_compute; reflexivity. Qed.

Lemma star_dot_accept (fl : flags) (s : text) :
  forall prev, star_loop fl Dot (accept) prev s = Some (rest_of_line s).
Proof.
  induction s as [|a s IH]; intros prev; simpl; [reflexivity|].
  destruct (Ascii.eqb a newline); simpl; [reflexivity|].
  now rewrite IH.
Qed.

(** The criteria pattern matches at a checkbox item and runs to the end
    of its line. *)
Lemma criteria_match (prev : option ascii) (s : text) :
  match_at ignorecase criteria_re prev s
  = if starts_criterion s then Some (rest_of_line (skipn 7 s)) else None.
Proof.
  unfold match_at, criteria_re, Plus, starts_criterion, checkbox_item.
  cbn [lits T list_ascii_of_string m].
  destruct s as [|a1 [|a2 [|a3 [|c [|a5 [|a6 [|d t]]]]]]];
    cbn [prefix_by skipn];
    rewrite ?cls_lit_dash, ?cls_lit_blank, ?cls_lit_lbracket,
      ?cls_lit_rbracket, ?cls_box_mark;
    repeat match goal with
      | |- context [is_char ?x ?y] => destruct (is_char x y); cbn [andb]
      | |- context [box_mark ?y] => destruct (box_mark y); cbn [andb]
      end;
    try reflexivity.
  cbn [cls_match]. fold (not_newline d).
  destruct (not_newline d); [|reflexivity].
  cbn [m]. now rewrite star_dot_accept.
Qed.

Lemma prefix_by_app (tests : list (ascii -> bool)) :
  forall ln rest,
    prefix_by tests ln = true -> prefix_by tests (ln ++ rest) = true.
Proof.
  induction tests as [|t ts IH]; intros ln rest; [reflexivity|].
  destruct ln as [|a ln]; simpl; [discriminate|].
  intros H. apply andb_true_iff in H. destruct H as [-> H].
  now rewrite IH.
Qed.

Lemma prefix_by_line (tests : list (ascii -> bool)) :
  on_a_line tests ->
  forall ln rest,
    line_end rest = true ->
    prefix_by tests (ln ++ rest) = true ->
    prefix_by tests ln = true /\ List.length tests <= List.length ln.
Proof.
  induction 1 as [|t ts Ht Hts IH]; intros ln rest Hr; simpl.
  - split; [reflexivity|lia].
  - destruct ln as [|a ln]; cbn [app].
    + destruct rest as [|b rest]; [discriminate|].
      intros H. apply andb_true_iff in H. destruct H as [Hb _].
      apply Ht in Hb. simpl in Hr. congruence.
    + intros H. apply andb_true_iff in H. destruct H as [Ha H].
      destruct (IH ln rest Hr H) as [H1 H2]. rewrite Ha, H1. simpl.
      split; [reflexivity|lia].
Qed.

Lemma checkbox_item_line : on_a_line checkbox_item.
Proof.
  unfold checkbox_item, on_a_line.
  repeat constructor; intros a H;
    try (unfold is_char in H; apply Ascii.eqb_eq in H; subst; reflexivity).
  - unfold box_mark in H.
    apply orb_true_iff in H. destruct H as [H|H];
      [apply orb_true_iff in H; destruct H as [H|H]|];
      apply Ascii.eqb_eq in H; now subst.
  - unfold not_newline in H. now apply negb_true_iff.
Qed.

Lemma rest_of_line_end (q rest : text) :
  one_line q = true -> line_end rest = true ->
  rest_of_line (q ++ rest) = rest.
Proof.
  intros Hq Hr. induction q as [|a q IH]; cbn [app].
  - destruct rest as [|b rest]; [reflexivity|].
    cbn [rest_of_line line_end] in *. now rewrite Hr.
  - cbn [one_line forallb] in Hq. apply andb_true_iff in Hq.
    destruct Hq as [Ha Hq]. apply negb_true_iff in Ha.
    cbn [rest_of_line]. rewrite Ha. now apply IH.
Qed.

Lemma one_line_skipn (n : nat) (ln : text) :
  one_line ln = true -> one_line (skipn n ln) = true.
Proof.
  intros H. rewrite <- (firstn_skipn n ln), one_line_app in H.
  apply andb_true_iff in H. now destruct H.
Qed.

Lemma criteria_match_line (prev : option ascii) (ln rest : text) :
  one_line ln = true -> line_end rest = true ->
  match_at ignorecase criteria_re prev (ln ++ rest)
  = if starts_criterion ln then Some rest else None.
Proof.
  intros Hl Hr. rewrite criteria_match.
  destruct (starts_criterion (ln ++ rest)) eqn:E.
  - destruct (prefix_by_line _ checkbox_item_line ln rest Hr E) as [H1 H2].
    unfold starts_criterion at 1. rewrite H1.
    rewrite skipn_app.
    replace (7 - List.length ln) with 0 by (simpl in H2; lia).
    change (skipn 0 rest) with rest.
    rewrite rest_of_line_end; [reflexivity| |exact Hr].
    now apply one_line_skipn.
  - destruct (starts_criterion ln) eqn:E'; [|reflexivity].
    apply (prefix_by_app _ _ rest) in E'. unfold starts_criterion in E.
    congruence.
Qed.

Lemma criteria_scan_line (ln : text) :
  forall prev rest,
    one_line ln = true -> line_end rest = true ->
    List.length (findall_from ignorecase criteria_re 0 prev (ln ++ rest))
    = (if has_criterion ln then 1 else 0)
      + List.length
          match rest with
          | [] => []
          | b :: rest' => findall_from ignorecase criteria_re 0 (Some b) rest'
          end.
Proof.
  assert (Hend : forall prev rest,
             line_end rest = true ->
             findall_from ignorecase criteria_re 0 prev rest
             = match rest with
               | [] => []
               | b :: rest' =>
                   findall_from ignorecase criteria_re 0 (Some b) rest'
               end).
  { intros prev rest Hr.
    pose proof (criteria_match_line prev [] rest eq_refl Hr) as Hm.
    cbn in Hm. destruct rest as [|b rest].
    - now apply findall_end.
    - now apply findall_miss. }
  induction ln as [|a ln IH]; intros prev rest Hl Hr.
  - cbn [app has_criterion]. now rewrite Hend.
  - pose proof (criteria_match_line prev (a :: ln) rest Hl Hr) as Hm.
    cbn [has_criterion].
    destruct (starts_criterion (a :: ln)).
    + rewrite (findall_hit ignorecase _ _ _ _ _ Hm).
      cbn [orb List.length]. now rewrite Hend.
    + cbn [app] in *. rewrite findall_miss by exact Hm.
      simpl in Hl. apply andb_true_iff in Hl. destruct Hl as [_ Hl].
      cbn [orb]. now apply IH.
Qed.

Lemma criteria_scan_lines (lines : list text) :
  lines <> [] ->
  Forall (fun ln => one_line ln = true) lines ->
  forall prev,
    List.length (findall_from ignorecase criteria_re 0 prev
                   (join newline lines))
    = List.length (filter has_criterion lines).
Proof.
  induction lines as [|ln lines IH]; intros Hne Hall prev;
    [now contradiction Hne|].
  inversion Hall as [|? ? Hl Hall']; subst.
  destruct lines as [|l2 lines].
  - cbn [join filter]. rewrite <- (app_nil_r ln) at 1.
    rewrite criteria_scan_line by auto.
    destruct (has_criterion ln); reflexivity.
  - change (join newline (ln :: l2 :: lines))
      with (ln ++ newline :: join newline (l2 :: lines)).
    rewrite criteria_scan_line by first [assumption|reflexivity].
    rewrite IH; [|discriminate|assumption].
    cbn [filter]. destruct (has_criterion ln); reflexivity.
Qed.

Lemma has_criterion_shape (ln : text) :
  has_criterion ln = true
  <-> exists before c d after,
        ln = before ++ T "- [" ++ [c] ++ T "] " ++ d :: after
        /\ box_mark c = true /\ not_newline d = true.
Proof.
  induction ln as [|a ln IH].
  - split; [discriminate|].
    intros (b & c & d & af & E & _). destruct b; discriminate E.
  - cbn [has_criterion]. rewrite orb_true_iff, IH. split.
    + intros [H|(b & c & d & af & -> & Hc & Hd)].
      * unfold starts_criterion, checkbox_item in H.
        destruct ln as [|a2 [|a3 [|c [|a5 [|a6 [|d t]]]]]];
          cbn [prefix_by] in H;
          repeat (apply andb_true_iff in H; destruct H as [?H H]);
          try discriminate.
        unfold is_char in *.
        repeat match goal with
          | H : Ascii.eqb _ _ = true |- _ => apply Ascii.eqb_eq in H; subst
          end.
        exists [], c, d, t. auto.
      * exists (a :: b), c, d, af. auto.
    + intros (b & c & d & af & E & Hc & Hd).
      destruct b as [|b0 b].
      * left. cbn in E. injection E as -> ->.
        unfold starts_criterion, checkbox_item. cbn [prefix_by].
        now rewrite Hc, Hd.
      * right. cbn in E. injection E as -> ->.
        exists b, c, d, af. auto.
Qed.

(** X5: the acceptance-criteria count is the number of lines of the
    document, split at line feeds, that hold a dash, a blank, a box
    marked x, X or blank, a blank and at least one more character; a
    line counts once however many items it holds, so the count never
    exceeds the line count. *)
Theorem criteria_count_lines (content : text) :
  count_acceptance_criteria content
  = List.length (filter has_criterion (split newline content))
  /\ (forall ln,
        has_criterion ln = true
        <-> exists before c d after,
              ln = before ++ T "- [" ++ [c] ++ T "] " ++ d :: after
              /\ box_mark c = true /\ not_newline d = true)
  /\ count_acceptance_criteria content <= line_count content.
Proof.
  assert (E : count_acceptance_criteria content
              = List.length (filter has_criterion (split newline content))).
  { unfold count_acceptance_criteria, findall.
    rewrite <- (join_split newline content) at 1.
    apply criteria_scan_lines; [apply split_not_nil|apply segments_one_line]. }
  split; [exact E|]. split; [apply has_criterion_shape|].
  rewrite E. unfold line_count. apply filter_length_le.
Qed.

(** X6: a document flagged by the missing-acceptance-criteria check
    has an acceptance-criteria count of at least one: the unchecked box
    with its bracket is itself counted as a criterion. *)
Theorem unchecked_bracket_is_counted (content : text)
  (Hflag : dict_mem (check_quality content) "missing_acceptance_criteria"
           = true) :
  1 <= count_acceptance_criteria content.
Proof.
  apply unchecked_bracket_found in Hflag.
  destruct Hflag as (before & after & ->).
  unfold count_acceptance_criteria. apply findall_denote.
  assert (H : match_at ignorecase criteria_re (last_char None before)
                (unchecked_bracket ++ after) <> None).
  { rewrite criteria_match. cbn. discriminate. }
  apply match_at_denote in H. destruct H as (s1 & s2 & E & Hd).
  exists before, s1, s2. split; [now rewrite E|exact Hd].
Qed.

Lemma unchecked_bracket_is_counted_witness :
  1 <= count_acceptance_criteria (T "- [ ] [owner to decide]").
Proof.
  apply (unchecked_bracket_is_counted (T "- [ ] [owner to decide]")).
  vm_compute. reflexivity.
Defined.

(** ** Section checker: text around a document *)

(** X7: on names that stand for themselves in a pattern, text put
    before and after a document never loses a section: a name present
    in the document is present in the larger one, and every name missing
    from the larger one was missing from the document. *)
Theorem sections_survive_embedding (content before after : text)
  (required : list string) (Hplain : forallb plain_name required = true) :
  (forall s, In s required ->
     section_present content s = true ->
     section_present (before ++ content ++ after) s = true)
  /\ (forall s,
        In s (snd (validate_sections (before ++ content ++ after) required)) ->
        In s (snd (validate_sections content required))).
Proof.
  assert (H : forall s, section_present content s = true ->
                        section_present (before ++ content ++ after) s = true).
  { intros s Hs. apply section_present_shape in Hs.
    destruct Hs as (b & m & a & -> & Hm).
    apply section_present_shape.
    exists (before ++ b), m, (a ++ after). split; [|exact Hm].
    now rewrite <- !app_assoc. }
  split; [intros s _; apply H|].
  intros s. rewrite !validate_sections_filter. cbn [snd].
  rewrite !filter_In, !negb_true_iff. intros [Hin Hs]. split; [exact Hin|].
  destruct (section_present content s) eqn:E; [|reflexivity].
  apply H in E. congruence.
Qed.

Lemma sections_survive_embedding_witness :
  (forall s, In s QUICK_SPEC_SECTIONS ->
     section_present scenario_a s = true ->
     section_present (T "# Title" ++ scenario_a ++ T "## Notes") s = true)
  /\ (forall s,
        In s (snd (validate_sections (T "# Title" ++ scenario_a ++ T "## Notes")
                     QUICK_SPEC_SECTIONS)) ->
        In s (snd (validate_sections scenario_a QUICK_SPEC_SECTIONS))).
Proof.
  apply (sections_survive_embedding scenario_a (T "# Title") (T "## Notes")
           QUICK_SPEC_SECTIONS).
  vm_compute. reflexivity.
Defined.

(** ** Driver: runs over several lists of files *)

Lemma main_result (fs : files) (quick : bool) (l : list string) :
  main fs l quick
  = (concat (map (fun f => fst (validate_spec fs f quick)) l),
     if forallb (fun f => snd (validate_spec fs f quick)) l then 0 else 1).
Proof. unfold main. rewrite main_loop. reflexivity. Qed.

Lemma forallb_perm {A : Type} (p : A -> bool) (l l' : list A) :
  Permutation l l' -> forallb p l = forallb p l'.
Proof.
  induction 1; simpl.
  - reflexivity.
  - now rewrite IHPermutation.
  - now rewrite !andb_assoc, (andb_comm (p y)).
  - congruence.
Qed.

(** X8: a run over two lists of files one after the other prints the
    report of the first run followed by that of the second and exits
    with the larger of the two exit statuses; the exit status does not
    depend on the order of the files. *)
Theorem main_append (fs : files) (quick : bool) (l1 l2 : list string) :
  fst (main fs (l1 ++ l2) quick)
  = fst (main fs l1 quick) ++ fst (main fs l2 quick)
  /\ snd (main fs (l1 ++ l2) quick)
     = Nat.max (snd (main fs l1 quick)) (snd (main fs l2 quick))
  /\ (forall l, Permutation l1 l ->
        snd (main fs l quick) = snd (main fs l1 quick)).
Proof.
  rewrite !main_result. cbn [fst snd].
  split; [now rewrite map_app, concat_app|].
  split.
  - rewrite forallb_app.
    destruct (forallb _ l1), (forallb _ l2); reflexivity.
  - intros l Hp. rewrite main_result. cbn [snd].
    now rewrite (forallb_perm _ _ _ Hp).
Qed.

(** ** The report *)

Lemma validate_spec_report (fs : files) (filepath : string) (quick : bool)
  (content : text) :
  fs filepath = Some content ->
  fst (validate_spec fs filepath quick)
  = [Validating filepath; Rule]
    ++ section_lines (required_for quick)
         (snd (validate_sections content (required_for quick)))
    ++ quality_lines (check_quality content)
    ++ stat_lines content
    ++ RecsHeader :: rec_lines quick content
    ++ [Rule;
        VerdictLine
          (decide_verdict
             (snd (validate_sections content (required_for quick)))
             (check_quality content))].
Proof.
  intros H.
  unfold validate_spec, required_for, decide_verdict, section_lines,
    quality_lines, stat_lines, rec_lines.
  rewrite H.
  destruct (validate_sections content
              (if quick then QUICK_SPEC_SECTIONS else FULL_SPEC_SECTIONS))
    as [found missing].
  cbv zeta. cbn [snd].
  destruct ((0 <? List.length missing)
            || dict_mem (check_quality content) "unresolved_placeholders");
    [|destruct (check_quality content)];
    cbn [fst]; rewrite <- !app_assoc; reflexivity.
Qed.

Lemma filter_map_out {A B : Type} (p : B -> bool) (f : A -> B) (l : list A) :
  (forall x, p (f x) = false) -> filter p (map f l) = [].
Proof.
  intros H. induction l as [|x l IH]; simpl; [reflexivity|].
  now rewrite H.
Qed.

Lemma filter_map_in {A B : Type} (p : B -> bool) (f : A -> B) (l : list A) :
  (forall x, p (f x) = true) -> filter p (map f l) = map f l.
Proof.
  intros H. induction l as [|x l IH]; simpl; [reflexivity|].
  now rewrite H, IH.
Qed.

Lemma rec_lines_only (quick : bool) (content : text) :
  filter is_recommendation (rec_lines quick content) = rec_lines quick content
  /\ filter is_section_line (rec_lines quick content) = []
  /\ filter is_quality_line (rec_lines quick content) = [].
Proof.
  unfold rec_lines.
  destruct (count_acceptance_criteria content <? 3),
    ((check_code_blocks content <? 2) && negb quick),
    ((check_tables content <? 3) && negb quick),
    ((line_count content <? 100) && negb quick),
    (500 <? line_count content); repeat split.
Qed.

Lemma section_lines_only (required missing : list string) :
  filter is_recommendation (section_lines required missing) = []
  /\ filter is_section_line (section_lines required missing)
     = section_lines required missing
  /\ filter is_quality_line (section_lines required missing) = [].
Proof.
  unfold section_lines. destruct missing as [|s l]; [repeat split|].
  cbn [filter is_recommendation is_section_line is_quality_line].
  split; [|split].
  - now apply filter_map_out.
  - now rewrite filter_map_in.
  - now apply filter_map_out.
Qed.

Lemma quality_lines_only (issues : dict) :
  filter is_recommendation (quality_lines issues) = []
  /\ filter is_section_line (quality_lines issues) = []
  /\ filter is_quality_line (quality_lines issues) = quality_lines issues.
Proof.
  unfold quality_lines. destruct issues as [|i l]; [repeat split|].
  cbn [filter is_recommendation is_section_line is_quality_line].
  split; [|split].
  - now apply filter_map_out.
  - now apply filter_map_out.
  - now rewrite filter_map_in.
Qed.

Lemma report_blocks (fs : files) (filepath : string) (quick : bool)
  (content : text) :
  fs filepath = Some content ->
  let out := fst (validate_spec fs filepath quick) in
  filter is_recommendation out = rec_lines quick content
  /\ filter is_section_line out
     = section_lines (required_for quick)
         (snd (validate_sections content (required_for quick)))
  /\ filter is_quality_line out = quality_lines (check_quality content).
Proof.
  intros H out. unfold out. rewrite (validate_spec_report _ _ _ _ H).
  destruct (rec_lines_only quick content) as (R1 & R2 & R3).
  destruct (section_lines_only (required_for quick)
              (snd (validate_sections content (required_for quick))))
    as (S1 & S2 & S3).
  destruct (quality_lines_only (check_quality content)) as (Q1 & Q2 & Q3).
  change (RecsHeader :: rec_lines quick content ++ ?t)
    with ([RecsHeader] ++ rec_lines quick content ++ t).
  rewrite !filter_app, R1, R2, R3, S1, S2, S3, Q1, Q2, Q3.
  cbn. rewrite !app_nil_r. repeat split.
Qed.

(** X9: in the report of a file that exists, each recommendation is
    printed exactly under its rule: more criteria when fewer than 3 are
    counted; code examples, tables and more detail only in full mode,
    when fewer than 2 code blocks, fewer than 3 table rows or fewer than
    100 lines are counted; splitting when more than 500 lines are
    counted, in either mode.  So the quick mode recommends nothing but
    more criteria or splitting, and more detail and splitting are never
    recommended together. *)
Theorem recommendation_rules (fs : files) (filepath : string) (quick : bool)
  (content : text) (Hfile : fs filepath = Some content) :
  let out := fst (validate_spec fs filepath quick) in
  (forall n, In (RecCriteria n) out
             <-> n = count_acceptance_criteria content /\ n < 3)
  /\ (forall n, In (RecCodeExamples n) out
                <-> quick = false /\ n = check_code_blocks content /\ n < 2)
  /\ (In RecTables out <-> quick = false /\ check_tables content < 3)
  /\ (forall n, In (RecBrief n) out
                <-> quick = false /\ n = line_count content /\ n < 100)
  /\ (forall n, In (RecLong n) out
                <-> n = line_count content /\ 500 < n)
  /\ (quick = true ->
      forall l, In l out -> is_recommendation l = true ->
                (exists n, l = RecCriteria n) \/ (exists n, l = RecLong n))
  /\ (forall n k, In (RecBrief n) out -> In (RecLong k) out -> False).
Proof.
  intros out.
  destruct (report_blocks fs filepath quick content Hfile) as (Hr & _).
  fold out in Hr.
  assert (Hin : forall l, is_recommendation l = true ->
                          (In l out <-> In l (rec_lines quick content))).
  { intros l Hl. rewrite <- Hr, filter_In. tauto. }
  assert (H1 : forall n, In (RecCriteria n) out
                         <-> n = count_acceptance_criteria content /\ n < 3).
  { intros n. rewrite Hin by reflexivity. unfold rec_lines.
    rewrite !in_app_iff.
    destruct (Nat.ltb_spec (count_acceptance_criteria content) 3),
      ((check_code_blocks content <? 2) && negb quick),
      ((check_tables content <? 3) && negb quick),
      ((line_count content <? 100) && negb quick),
      (500 <? line_count content); simpl;
      intuition (try discriminate; try congruence; try lia). }
  assert (H2 : forall n, In (RecCodeExamples n) out
                         <-> quick = false /\ n = check_code_blocks content
                             /\ n < 2).
  { intros n. rewrite Hin by reflexivity. unfold rec_lines.
    rewrite !in_app_iff.
    destruct (count_acceptance_criteria content <? 3),
      (Nat.ltb_spec (check_code_blocks content) 2), quick,
      ((check_tables content <? 3)),
      ((line_count content <? 100)),
      (500 <? line_count content); simpl;
      intuition (try discriminate; try congruence; try lia). }
  assert (H3 : In RecTables out <-> quick = false /\ check_tables content < 3).
  { rewrite Hin by reflexivity. unfold rec_lines.
    rewrite !in_app_iff.
    destruct (count_acceptance_criteria content <? 3),
      ((check_code_blocks content <? 2)), quick,
      (Nat.ltb_spec (check_tables content) 3),
      ((line_count content <? 100)),
      (500 <? line_count content); simpl;
      intuition (try discriminate; try congruence; try lia). }
  assert (H4 : forall n, In (RecBrief n) out
                         <-> quick = false /\ n = line_count content /\ n < 100).
  { intros n. rewrite Hin by reflexivity. unfold rec_lines.
    rewrite !in_app_iff.
    destruct (count_acceptance_criteria content <? 3),
      ((check_code_blocks content <? 2)), quick,
      ((check_tables content <? 3)),
      (Nat.ltb_spec (line_count content) 100),
      (500 <? line_count content); simpl;
      intuition (try discriminate; try congruence; try lia). }
  assert (H5 : forall n, In (RecLong n) out
                         <-> n = line_count content /\ 500 < n).
  { intros n. rewrite Hin by reflexivity. unfold rec_lines.
    rewrite !in_app_iff.
    destruct (count_acceptance_criteria content <? 3),
      ((check_code_blocks content <? 2) && negb quick),
      ((check_tables content <? 3) && negb quick),
      ((line_count content <? 100) && negb quick),
      (Nat.ltb_spec 500 (line_count content)); simpl;
      intuition (try discriminate; try congruence; try lia). }
  split; [exact H1|]. split; [exact H2|]. split; [exact H3|].
  split; [exact H4|]. split; [exact H5|]. split.
  - intros Hq l Hl Hrec. destruct l; try discriminate Hrec; eauto.
    + apply H2 in Hl. destruct Hl as [Hf _]. congruence.
    + apply H3 in Hl. destruct Hl as [Hf _]. congruence.
    + apply H4 in Hl. destruct Hl as [Hf _]. congruence.
  - intros n k Hb Hl. apply H4 in Hb. apply H5 in Hl. lia.
Qed.

Lemma recommendation_rules_witness :
  In (RecCriteria 0)
    (fst (validate_spec (one_file "quick.md" mixed_headings) "quick.md" true))
  <-> 0 = count_acceptance_criteria mixed_headings /\ 0 < 3.
Proof.
  exact (proj1 (recommendation_rules (one_file "quick.md" mixed_headings)
                  "quick.md" true mixed_headings eq_refl) 0).
Defined.

Lemma check_quality_list (content : text) :
  check_quality content = quality_entries content.
Proof.
  unfold check_quality, quality_entries, count_of, QUALITY_PATTERNS.
  cbn [fold_left flat_map fst snd].
  generalize (findall ignorecase unresolved_placeholders_re content).
  generalize (findall ignorecase empty_tables_re content).
  generalize (findall ignorecase missing_acceptance_criteria_re content).
  generalize (findall ignorecase vague_language_re content).
  intros [|? ?] [|? ?] [|? ?] [|? ?]; reflexivity.
Qed.

(** X10: the quality dictionary lists the checks that have a match in
    the fixed order unresolved placeholders, empty tables, missing
    acceptance criteria, vague language, each once and with its number
    of matches. *)
Theorem check_quality_in_order (content : text) :
  check_quality content = quality_entries content
  /\ NoDup (map fst (check_quality content))
  /\ map fst (check_quality content)
     = filter (fun name => dict_mem (check_quality content) name)
         (map fst QUALITY_PATTERNS).
Proof.
  split; [apply check_quality_list|].
  rewrite check_quality_list.
  unfold quality_entries, count_of, QUALITY_PATTERNS.
  cbn [flat_map fst snd map].
  generalize (findall ignorecase unresolved_placeholders_re content).
  generalize (findall ignorecase empty_tables_re content).
  generalize (findall ignorecase missing_acceptance_criteria_re content).
  generalize (findall ignorecase vague_language_re content).
  intros [|? ?] [|? ?] [|? ?] [|? ?]; (split; [|reflexivity]);
    cbn [List.length app map fst];
    repeat (constructor; [simpl; intuition discriminate|]); constructor.
Qed.

(** X11: in the report of a file that exists, the quality block is the
    no-issues line when no check has a match; otherwise it is the header
    followed, in this order and each only when it has a match, by
    Unresolved Placeholders, Empty Tables, Missing Acceptance Criteria
    and Vague Language with their numbers of matches. *)
Theorem report_quality_block (fs : files) (filepath : string) (quick : bool)
  (content : text) (Hfile : fs filepath = Some content) :
  filter is_quality_line (fst (validate_spec fs filepath quick))
  = match quality_items content with
    | [] => [NoQualityIssues]
    | _ :: _ => QualityHeader :: quality_items content
    end.
Proof.
  destruct (report_blocks fs filepath quick content Hfile) as (_ & _ & Hq).
  rewrite Hq, check_quality_list.
  unfold quality_lines, quality_entries, quality_items, count_of,
    QUALITY_PATTERNS, quality_titles.
  cbn [flat_map fst snd].
  generalize (findall ignorecase unresolved_placeholders_re content).
  generalize (findall ignorecase empty_tables_re content).
  generalize (findall ignorecase missing_acceptance_criteria_re content).
  generalize (findall ignorecase vague_language_re content).
  intros [|? ?] [|? ?] [|? ?] [|? ?]; reflexivity.
Qed.

Lemma report_quality_block_witness :
  filter is_quality_line
    (fst (validate_spec (one_file "notes.md" three_maybes) "notes.md" false))
  = match quality_items three_maybes with
    | [] => [NoQualityIssues]
    | _ :: _ => QualityHeader :: quality_items three_maybes
    end.
Proof.
  exact (report_quality_block (one_file "notes.md" three_maybes) "notes.md"
           false three_maybes eq_refl).
Defined.

(** X12: in the report of a file that exists, the section block is the
    all-present line with the number of required names (8 in full mode,
    4 in quick mode) when none is missing; otherwise it is the header
    with the number of missing names followed by one line per missing
    name, in the order of the required list. *)
Theorem report_section_block (fs : files) (filepath : string) (quick : bool)
  (content : text) (Hfile : fs filepath = Some content) :
  let missing :=
    filter (fun s => negb (section_present content s)) (required_for quick) in
  filter is_section_line (fst (validate_spec fs filepath quick))
  = match missing with
    | [] => [AllPresent (if quick then 4 else 8)]
    | _ :: _ => MissingHeader (List.length missing) :: map MissingItem missing
    end.
Proof.
  intros missing.
  destruct (report_blocks fs filepath quick content Hfile) as (_ & Hs & _).
  rewrite Hs, validate_sections_filter. cbn [snd]. fold missing.
  unfold section_lines. destruct missing; [|reflexivity].
  destruct quick; reflexivity.
Qed.

Lemma report_section_block_witness :
  filter is_section_line
    (fst (validate_spec (one_file "full.md" scenario_b) "full.md" false))
  = [MissingHeader 2; MissingItem "Security"; MissingItem "Performance"].
Proof.
  exact (report_section_block (one_file "full.md" scenario_b) "full.md" false
           scenario_b eq_refl).
Defined.
